(** * nuru-cat: the mode-dispatched cell printer and its render driver

    A shallow embedding of [src/nuru-cat.c] (the program [nuru-cat]) and of
    the cell printer of its predecessor [nuru-view], followed by the
    properties the specification states about them.

    Integers are [Z]; a conversion to [uint8_t] or [uint16_t] is written out
    as a reduction modulo [2^8] or [2^16].  What a function writes to
    [stdout] is the list of the stdio calls it makes, in order; [render]
    gives the wide characters each call puts on the stream. *)

From Stdlib Require Import ZArith List Bool String Ascii Lia.
Import ListNotations.
Open Scope list_scope.
Open Scope Z_scope.

(** ** Fixed-width integers *)

Definition u8 (z : Z) : Z := z mod 256.
Definition u16 (z : Z) : Z := z mod 65536.

(** ** The data types of [nuru.h]

    The header itself is not part of the sources at hand; only its uses
    are.  The types below carry the fields [nuru-cat.c] reads. *)

Module nuru.

(** Modelled from the spec: a cell holds a glyph index or code point [ch]
    and two unsigned 8-bit colors [fg] and [bg] (spec section 3, Cell). *)
Record nuru_cell_s : Set := mk_cell { ch : Z; fg : Z; bg : Z }.

(** Modelled from the spec: an RGB palette entry is a triple of unsigned
    8-bit channels (spec section 3, Palette). *)
Record nuru_rgb_s : Set := mk_rgb { r : Z; g : Z; b : Z }.

(** Modelled from the spec: the color encoding modes form a closed
    enumeration (spec section 3, Encoding Mode).  The enumerators keep the
    names [nuru-cat.c] switches on. *)
Inductive nuru_color_mode : Set :=
| NURU_COLOR_MODE_NONE
| NURU_COLOR_MODE_4BIT
| NURU_COLOR_MODE_8BIT
| NURU_COLOR_MODE_PALETTE.

(** Modelled from the spec: the glyph encoding modes, likewise. *)
Inductive nuru_glyph_mode : Set :=
| NURU_GLYPH_MODE_NONE
| NURU_GLYPH_MODE_ASCII
| NURU_GLYPH_MODE_UNICODE
| NURU_GLYPH_MODE_PALETTE.

(** Modelled from the spec: a palette has exactly one of three types
    (spec section 3, Palette).  [print_color_pal] tests for the first two. *)
Inductive nuru_pal_type : Set :=
| NURU_PAL_TYPE_COLOR_8BIT
| NURU_PAL_TYPE_COLOR_RGB
| NURU_PAL_TYPE_GLYPH.

(** Modelled from the spec: the palette as a tagged table of entries. *)
Inductive nuru_pal_s : Set :=
| ColorTable8Bit (colors : list Z)
| ColorTableRGB (rgbs : list nuru_rgb_s)
| GlyphTable (glyphs : list Z).

(** The [type] field of a palette. *)
Definition type (pal : nuru_pal_s) : nuru_pal_type :=
  match pal with
  | ColorTable8Bit _ => NURU_PAL_TYPE_COLOR_8BIT
  | ColorTableRGB _ => NURU_PAL_TYPE_COLOR_RGB
  | GlyphTable _ => NURU_PAL_TYPE_GLYPH
  end.

(** Modelled from the spec: the decoded image (spec section 3, Image), with
    the field names [info] and [print_nui] use.  The three keys are bytes
    and the dimensions unsigned 16-bit (spec section 6). *)
Record nuru_img_s : Set := mk_img {
  signature : string;
  version : Z;
  color_mode : nuru_color_mode;
  glyph_mode : nuru_glyph_mode;
  mdata_mode : Z;
  cols : Z;
  rows : Z;
  ch_key : Z;
  fg_key : Z;
  bg_key : Z;
  glyph_pal : string;
  color_pal : string;
  cells : list nuru_cell_s
}.

(** Modelled from the spec: the fixed blank glyph is a space. *)
Definition NURU_SPACE : Z := 32.

(** The accessors of [nuru.h] that [nuru-cat.c] calls, and the integer
    values of the mode enumerators, which [main] tests bit 7 of.  Their
    definitions are not at hand, so the program is stated over any
    implementation of them; the result types are the ones the call sites
    assign to. *)
Class accessors : Type := {
  nuru_img_get_cell : nuru_img_s -> Z -> Z -> nuru_cell_s;
  nuru_pal_get_col_8bit : nuru_pal_s -> Z -> Z;
  nuru_pal_get_col_rgb : nuru_pal_s -> Z -> nuru_rgb_s;
  nuru_pal_get_glyph : nuru_pal_s -> Z -> Z;
  color_mode_value : nuru_color_mode -> Z;
  glyph_mode_value : nuru_glyph_mode -> Z
}.

(** Modelled from the spec: the accessors over the tables above.  The grid
    is row-major (spec section 3); a palette maps an index to its entry.
    Outside a table the look-up yields a zero entry, as the C result types
    leave no room for an error value.  The palette modes carry the high
    bit (spec section 4.3); the low bits only number the enumerators. *)
Definition table_accessors : accessors := {|
  nuru_img_get_cell nui c r :=
    nth (Z.to_nat (r * cols nui + c)) (cells nui) (mk_cell 0 0 0);
  nuru_pal_get_col_8bit pal i :=
    match pal with
    | ColorTable8Bit l => nth (Z.to_nat i) l 0
    | _ => 0
    end;
  nuru_pal_get_col_rgb pal i :=
    match pal with
    | ColorTableRGB l => nth (Z.to_nat i) l (mk_rgb 0 0 0)
    | _ => mk_rgb 0 0 0
    end;
  nuru_pal_get_glyph pal i :=
    match pal with
    | GlyphTable l => nth (Z.to_nat i) l 0
    | _ => 0
    end;
  color_mode_value m :=
    match m with
    | NURU_COLOR_MODE_NONE => 0
    | NURU_COLOR_MODE_4BIT => 1
    | NURU_COLOR_MODE_8BIT => 2
    | NURU_COLOR_MODE_PALETTE => 128 + 2
    end;
  glyph_mode_value m :=
    match m with
    | NURU_GLYPH_MODE_NONE => 0
    | NURU_GLYPH_MODE_ASCII => 1
    | NURU_GLYPH_MODE_UNICODE => 2
    | NURU_GLYPH_MODE_PALETTE => 128 + 1
    end
|}.

End nuru.

Import nuru.

(** ** Terminal output *)

(** A wide-character string, as code points. *)
Definition wstring : Set := list Z.

Definition wstr (s : string) : wstring :=
  map (fun a => Z.of_nat (nat_of_ascii a)) (list_ascii_of_string s).

Definition ESC : Z := 27.

(** The ANSI escape codes [nuru-cat.c] defines. *)
Definition ANSI_FONT_RESET : wstring := ESC :: wstr "[0m".
Definition ANSI_HIDE_CURSOR : wstring := ESC :: wstr "[?25l".
Definition ANSI_SHOW_CURSOR : wstring := ESC :: wstr "[?25h".
Definition ANSI_CLEAR_SCREEN : wstring := ESC :: wstr "[2J".
Definition ANSI_CURSOR_RESET : wstring := ESC :: wstr "[H".

(** One call that writes to [stdout].  The five [wprintf] format strings of
    the printer each have a constructor of their own. *)
Inductive term_out : Set :=
| SGR (col : Z)                 (* wprintf(L"\x1b[%hhum", col) *)
| SGR_FG_8BIT (col : Z)         (* wprintf(L"\x1b[38;5;%hhum", col) *)
| SGR_BG_8BIT (col : Z)         (* wprintf(L"\x1b[48;5;%hhum", col) *)
| SGR_FG_RGB (r g b : Z)        (* wprintf(L"\x1b[38;2;%hhu;%hhu;%hhum", r, g, b) *)
| SGR_BG_RGB (r g b : Z)        (* wprintf(L"\x1b[48;2;%hhu;%hhu;%hhum", r, g, b) *)
| PUTWC (wc : Z)                (* fputwc(wc, stdout) *)
| PUTWS (ws : wstring).         (* fputws(ws, stdout) *)

(** [%hhu]: the argument converted to [unsigned char], in decimal. *)
Definition hhu (n : Z) : wstring :=
  let v := u8 n in
  (if 100 <=? v then [48 + v / 100] else []) ++
  (if 10 <=? v then [48 + (v / 10) mod 10] else []) ++
  [48 + v mod 10].

(** The characters a call puts on the stream. *)
Definition render (o : term_out) : wstring :=
  match o with
  | SGR col => ESC :: wstr "[" ++ hhu col ++ wstr "m"
  | SGR_FG_8BIT col => ESC :: wstr "[38;5;" ++ hhu col ++ wstr "m"
  | SGR_BG_8BIT col => ESC :: wstr "[48;5;" ++ hhu col ++ wstr "m"
  | SGR_FG_RGB r g b =>
      ESC :: wstr "[38;2;" ++ hhu r ++ wstr ";" ++ hhu g ++ wstr ";" ++ hhu b ++ wstr "m"
  | SGR_BG_RGB r g b =>
      ESC :: wstr "[48;2;" ++ hhu r ++ wstr ";" ++ hhu g ++ wstr ";" ++ hhu b ++ wstr "m"
  | PUTWC wc => [wc]
  | PUTWS ws => ws
  end.

Definition render_all (out : list term_out) : wstring := flat_map render out.

(** ** The color printers of [nuru-cat.c]

    Each printer is two [if] statements in a row, the first for the
    foreground and the second for the background; each statement has a
    name here, and the printer is the one after the other. *)

Definition print_color_4bit_fg (cell : nuru_cell_s) (fg_key : Z) : list term_out :=
  if negb (fg cell =? fg_key) then
    (* 0 => 30, 1 => 31, ... 7 => 37;  8 => 90, ... 15 => 97 *)
    let col := u8 (if fg cell <? 8 then fg cell + 30 else fg cell + 82) in
    [SGR col]
  else [].

Definition print_color_4bit_bg (cell : nuru_cell_s) (bg_key : Z) : list term_out :=
  if negb (bg cell =? bg_key) then
    (* 0 => 40, 1 => 41, ... 7 => 47;  8 => 100, ... 15 => 107 *)
    let col := u8 ((if bg cell <? 8 then bg cell + 30 else bg cell + 82) + 10) in
    [SGR col]
  else [].

Definition print_color_4bit (cell : nuru_cell_s) (fg_key bg_key : Z) : list term_out :=
  print_color_4bit_fg cell fg_key ++ print_color_4bit_bg cell bg_key.

Definition print_color_8bit_fg (cell : nuru_cell_s) (fg_key : Z) : list term_out :=
  if negb (fg cell =? fg_key) then [SGR_FG_8BIT (fg cell)] else [].

Definition print_color_8bit_bg (cell : nuru_cell_s) (bg_key : Z) : list term_out :=
  if negb (bg cell =? bg_key) then [SGR_BG_8BIT (bg cell)] else [].

Definition print_color_8bit (cell : nuru_cell_s) (fg_key bg_key : Z) : list term_out :=
  print_color_8bit_fg cell fg_key ++ print_color_8bit_bg cell bg_key.

Definition print_color_pal_fg `{accessors} (cell : nuru_cell_s) (fg_key : Z)
    (pal : nuru_pal_s) : list term_out :=
  if negb (fg cell =? fg_key) then
    match type pal with
    | NURU_PAL_TYPE_COLOR_8BIT =>
        let col := u8 (nuru_pal_get_col_8bit pal (fg cell)) in
        [SGR_FG_8BIT col]
    | NURU_PAL_TYPE_COLOR_RGB =>
        let rgb := nuru_pal_get_col_rgb pal (fg cell) in
        [SGR_FG_RGB (r rgb) (g rgb) (b rgb)]
    | _ => []
    end
  else [].

Definition print_color_pal_bg `{accessors} (cell : nuru_cell_s) (bg_key : Z)
    (pal : nuru_pal_s) : list term_out :=
  if negb (bg cell =? bg_key) then
    match type pal with
    | NURU_PAL_TYPE_COLOR_8BIT =>
        let col := u8 (nuru_pal_get_col_8bit pal (bg cell)) in
        [SGR_BG_8BIT col]
    | NURU_PAL_TYPE_COLOR_RGB =>
        let rgb := nuru_pal_get_col_rgb pal (bg cell) in
        [SGR_BG_RGB (r rgb) (g rgb) (b rgb)]
    | _ => []
    end
  else [].

Definition print_color_pal `{accessors} (cell : nuru_cell_s) (fg_key bg_key : Z)
    (pal : nuru_pal_s) : list term_out :=
  print_color_pal_fg cell fg_key pal ++ print_color_pal_bg cell bg_key pal.

(** ** The glyph printers of [nuru-cat.c]

    A [wchar_t] holds every value a cell stores, so the casts to it change
    nothing. *)

Definition print_glyph_none : list term_out :=
  let space := NURU_SPACE in
  [PUTWC space].

Definition print_glyph_ascii (cell : nuru_cell_s) (ch_key : Z) : list term_out :=
  if ch cell =? ch_key then print_glyph_none
  else [PUTWC (ch cell)].

Definition print_glyph_unicode (cell : nuru_cell_s) (ch_key : Z) : list term_out :=
  if ch cell =? ch_key then print_glyph_none
  else [PUTWC (ch cell)].

Definition print_glyph_pal `{accessors} (cell : nuru_cell_s) (ch_key : Z)
    (nug : nuru_pal_s) : list term_out :=
  if ch cell =? ch_key then print_glyph_none
  else
    let ch := nuru_pal_get_glyph nug (ch cell) in
    [PUTWC ch].

(** ** The render driver of [nuru-cat.c] *)

(** The body of the inner loop of [print_nui], for the cell it fetched:
    the switch on the color mode, the switch on the glyph mode and the
    font reset.  The keys of the image are bytes, so handing them to the
    [uint8_t] parameters of the printers converts nothing. *)
Definition print_cell_color `{accessors} (nui : nuru_img_s) (nuc : nuru_pal_s)
    (cell : nuru_cell_s) : list term_out :=
  match color_mode nui with
  | NURU_COLOR_MODE_NONE => []
  | NURU_COLOR_MODE_4BIT => print_color_4bit cell (fg_key nui) (bg_key nui)
  | NURU_COLOR_MODE_8BIT => print_color_8bit cell (fg_key nui) (bg_key nui)
  | NURU_COLOR_MODE_PALETTE => print_color_pal cell (fg_key nui) (bg_key nui) nuc
  end.

Definition print_cell_glyph `{accessors} (nui : nuru_img_s) (nug : nuru_pal_s)
    (cell : nuru_cell_s) : list term_out :=
  match glyph_mode nui with
  | NURU_GLYPH_MODE_NONE => print_glyph_none
  | NURU_GLYPH_MODE_ASCII => print_glyph_ascii cell (ch_key nui)
  | NURU_GLYPH_MODE_UNICODE => print_glyph_unicode cell (ch_key nui)
  | NURU_GLYPH_MODE_PALETTE => print_glyph_pal cell (ch_key nui) nug
  end.

Definition print_cell `{accessors} (nui : nuru_img_s) (nug nuc : nuru_pal_s)
    (cell : nuru_cell_s) : list term_out :=
  print_cell_color nui nuc cell ++
  print_cell_glyph nui nug cell ++
  [PUTWS ANSI_FONT_RESET].

(** [for (uint16_t i = ...; cond(i); ++i) body(i)], from counter value [i].
    The increment wraps at [2^16]; [fuel] bounds the number of tests of the
    condition, and [None] means the bound was reached. *)
Fixpoint for_u16 (fuel : nat) (cond : Z -> bool)
    (body : Z -> option (list term_out)) (i : Z) : option (list term_out) :=
  match fuel with
  | O => None
  | S fuel' =>
      if cond i then
        match body i with
        | Some o =>
            match for_u16 fuel' cond body (u16 (i + 1)) with
            | Some rest => Some (o ++ rest)
            | None => None
            end
        | None => None
        end
      else Some []
  end.

(** A [uint16_t] counter has [2^16] values, which bounds the tests a loop
    that terminates can make. *)
Definition u16_values : nat := Z.to_nat 65536.

Definition NEWLINE : Z := 10.

(** [cols] and [rows] are [uint16_t] parameters: the body sees the
    arguments reduced modulo [2^16].  The result is what was written and
    the value returned. *)
Definition print_nui `{accessors} (nui : nuru_img_s) (nug nuc : nuru_pal_s)
    (cols rows : Z) : option (list term_out * Z) :=
  let cols := u16 cols in
  let rows := u16 rows in
  match
    for_u16 u16_values (fun r => (r <? nuru.rows nui) && (r <? rows))
      (fun r =>
         match
           for_u16 u16_values (fun c => (c <? nuru.cols nui) && (c <? cols))
             (fun c =>
                let cell := nuru_img_get_cell nui c r in
                Some (print_cell nui nug nuc cell))
             0
         with
         | Some row => Some (row ++ [PUTWC NEWLINE])
         | None => None
         end)
      0
  with
  | Some out => Some (out, -1)
  | None => None
  end.

(** ** The cell printer of [nuru-view] *)

Module nuru_view.

(** What the older [nuru.h] of [nuru-view] gives its printer: the cell
    fetch and the [codepoints] table of a palette. *)
Class accessors : Type := {
  nuru_get_cell : nuru_img_s -> Z -> Z -> nuru_cell_s;
  codepoints : nuru_pal_s -> Z -> Z
}.

Definition color_fg (color : Z) : list term_out := [SGR_FG_8BIT color].

Definition color_bg (color : Z) : list term_out := [SGR_BG_8BIT color].

(** The body of the inner loop of this [print_nui], for the cell it
    fetched.  The image fields this printer calls [fg] and [bg] are the two
    color keys; [pal] is a pointer that may be null. *)
Definition print_cell `{accessors} (img : nuru_img_s) (pal : option nuru_pal_s)
    (cell : nuru_cell_s) : list term_out :=
  (if negb (fg cell =? fg_key img) then color_fg (fg cell) else []) ++
  (if negb (bg cell =? bg_key img) then color_bg (bg cell) else []) ++
  (let ch :=
     match pal with
     | Some p => codepoints p (ch cell)
     | None => ch cell
     end in
   [PUTWC ch]) ++
  [PUTWS ANSI_FONT_RESET].

(** The bounds of the two loops are the dimensions of the image; [cols]
    and [rows] are not read. *)
Definition print_nui `{accessors} (img : nuru_img_s) (pal : option nuru_pal_s)
    (cols rows : Z) : option (list term_out * Z) :=
  match
    for_u16 u16_values (fun r => r <? nuru.rows img)
      (fun r =>
         match
           for_u16 u16_values (fun c => c <? nuru.cols img)
             (fun c =>
                let cell := nuru_get_cell img c r in
                Some (print_cell img pal cell))
             0
         with
         | Some row => Some (row ++ [PUTWC NEWLINE])
         | None => None
         end)
      0
  with
  | Some out => Some (out, -1)
  | None => None
  end.

End nuru_view.

(** ** [main] of [nuru-cat.c] *)

Record options_s : Set := mk_options {
  nui_file : option string;
  nug_file : option string;
  nuc_file : option string;
  info : Z;
  clear : Z;
  help : bool;
  version : bool
}.

(** [options_s opts = { 0 }] *)
Definition options_zero : options_s := mk_options None None None 0 0 false false.

(** [parse_args]: [parsed] lists what the successive calls of [getopt]
    return, each with its [optarg], and [operand] is [argv[optind]] once
    [getopt] is done, if there is one. *)
Definition parse_args (parsed : list (ascii * string)) (operand : option string)
    (opts : options_s) : options_s :=
  let opts :=
    fold_left
      (fun (opts : options_s) (o : ascii * string) =>
         let (c, optarg) := o in
         if Ascii.eqb c "c" then
           mk_options (nui_file opts) (nug_file opts) (Some optarg)
                      (info opts) (clear opts) (help opts) (version opts)
         else if Ascii.eqb c "C" then
           mk_options (nui_file opts) (nug_file opts) (nuc_file opts)
                      (info opts) 1 (help opts) (version opts)
         else if Ascii.eqb c "g" then
           mk_options (nui_file opts) (Some optarg) (nuc_file opts)
                      (info opts) (clear opts) (help opts) (version opts)
         else if Ascii.eqb c "h" then
           mk_options (nui_file opts) (nug_file opts) (nuc_file opts)
                      (info opts) (clear opts) true (version opts)
         else if Ascii.eqb c "i" then
           mk_options (nui_file opts) (nug_file opts) (nuc_file opts)
                      1 (clear opts) (help opts) (version opts)
         else if Ascii.eqb c "V" then
           mk_options (nui_file opts) (nug_file opts) (nuc_file opts)
                      (info opts) (clear opts) (help opts) true
         else opts)
      parsed opts in
  match operand with
  | Some file =>
      mk_options (Some file) (nug_file opts) (nuc_file opts)
                 (info opts) (clear opts) (help opts) (version opts)
  | None => opts
  end.

(** What [main] does, in order, as the calls it makes: the calls that
    write to [stdout] as above, the calls of [help], [version] and [info],
    an [fprintf] of a line to [stderr], the call [term_echo(on)] and the
    call of [nuru_img_free].  An entry stands for the call, not for its
    effect: [term_echo] leaves the terminal as it is when [tcgetattr] or
    [tcsetattr] fails, and [main] does not look at its result. *)
Inductive main_out : Set :=
| OUT (o : term_out)
| HELP (invocation : string)
| VERSION
| INFO (img : nuru_img_s)
| STDERR (msg : string) (arg : string)
| TERM_ECHO (on : Z)
| IMG_FREE.

(** What the system answers [main]: the command line as [getopt] reads it,
    the files as [nuru_img_load] and [nuru_pal_load] decode them (a failed
    load is [None]), the named palettes as [load_pal_by_name] finds them
    under the configuration directory, the window size ([None] when the
    [ioctl] fails) and the result of [fwide].  [nuru_pal_zero] is the
    palette [{ 0 }] that [main] hands on when it loads none. *)
Record system : Type := mk_system {
  argv0 : string;
  getopt : list (ascii * string);
  operand : option string;
  nuru_img_load : string -> option nuru_img_s;
  nuru_pal_load : string -> option nuru_pal_s;
  load_pal_by_name : string -> string -> option nuru_pal_s;
  nuru_pal_zero : nuru_pal_s;
  term_wsize : option (Z * Z);
  fwide : Z
}.

Definition EXIT_SUCCESS : Z := 0.
Definition EXIT_FAILURE : Z := 1.

Definition term_clear : list main_out :=
  [OUT (PUTWS ANSI_CLEAR_SCREEN); OUT (PUTWS ANSI_CURSOR_RESET)].

(** [term_setup] and [term_reset] call [term_echo] and drop its result;
    [TERM_ECHO on] is that call. *)
Definition term_setup (opts : options_s) : list main_out :=
  [OUT (PUTWS ANSI_HIDE_CURSOR); TERM_ECHO 0] ++
  (if negb (clear opts =? 0) then term_clear else []).

Definition term_reset : list main_out :=
  [OUT (PUTWS ANSI_FONT_RESET); OUT (PUTWS ANSI_SHOW_CURSOR); TERM_ECHO 1].

Definition nonempty (s : string) : bool :=
  match s with
  | EmptyString => false
  | String _ _ => true
  end.

(** [main], over the printer it calls: [display] stands for [print_nui].
    The result is what was observed and the exit status, or [None] when
    [display] does not return. *)
Definition main_with `{accessors}
    (display : nuru_img_s -> nuru_pal_s -> nuru_pal_s -> Z -> Z -> option (list term_out * Z))
    (sys : system) : option (list main_out * Z) :=
  let opts := parse_args (getopt sys) (operand sys) options_zero in
  if help opts then Some ([HELP (argv0 sys)], EXIT_SUCCESS)
  else if version opts then Some ([VERSION], EXIT_SUCCESS)
  else
    match nui_file opts with
    | None => Some ([STDERR "No image file given" ""], EXIT_FAILURE)
    | Some file =>
      match nuru_img_load sys file with
      | None => Some ([STDERR "Error loading image file: " file], EXIT_FAILURE)
      | Some nui =>
        if negb (info opts =? 0) then Some ([INFO nui], EXIT_SUCCESS)
        else
          let using_glyph_pal :=
            negb (Z.land (glyph_mode_value (glyph_mode nui)) 128 =? 0)
            && nonempty (glyph_pal nui) in
          let using_color_pal :=
            negb (Z.land (color_mode_value (color_mode nui)) 128 =? 0)
            && nonempty (color_pal nui) in
          let load (explicit : option string) (wanted : bool) (kind name : string)
              : string + nuru_pal_s :=
            match explicit with
            | Some path =>
                match nuru_pal_load sys path with
                | Some pal => inr pal
                | None => inl path
                end
            | None =>
                if wanted then
                  match load_pal_by_name sys kind name with
                  | Some pal => inr pal
                  | None => inl name
                  end
                else inr (nuru_pal_zero sys)
            end in
          match load (nug_file opts) using_glyph_pal "glyphs"%string (glyph_pal nui) with
          | inl what =>
              Some ([STDERR (match nug_file opts with
                             | Some _ => "Error loading palette file: "
                             | None => "Error loading palette: "
                             end) what], EXIT_FAILURE)
          | inr nug =>
            match load (nuc_file opts) using_color_pal "colors"%string (color_pal nui) with
            | inl what =>
                Some ([STDERR (match nuc_file opts with
                               | Some _ => "Error loading palette file: "
                               | None => "Error loading palette: "
                               end) what], EXIT_FAILURE)
            | inr nuc =>
              match term_wsize sys with
              | None => Some ([STDERR "Failed to determine terminal size" ""], EXIT_FAILURE)
              | Some (ws_col, ws_row) =>
                if (ws_col =? 0) || (ws_row =? 0) then
                  Some ([STDERR "Terminal size not appropriate" ""], EXIT_FAILURE)
                else if negb (fwide sys =? 1) then
                  Some ([STDERR "Couldn't put terminal in wide-character mode" ""],
                        EXIT_FAILURE)
                else
                  match display nui nug nuc ws_col ws_row with
                  | Some (out, _) =>
                      Some (term_setup opts ++ map OUT out ++ [IMG_FREE] ++ term_reset,
                            EXIT_SUCCESS)
                  | None => None
                  end
              end
            end
          end
      end
    end.

Definition main `{accessors} (sys : system) : option (list main_out * Z) :=
  main_with print_nui sys.

(** ** Notions the properties are stated with *)

(** The indices [0, 1, ..., n-1]; empty when [n <= 0]. *)
Definition seqZ (n : Z) : list Z := map Z.of_nat (seq 0 (Z.to_nat n)).

(** What the driver writes for row [r] when it visits the first [ncols]
    cells of it: the cells from left to right, then the line break. *)
Definition row_out `{accessors} (nui : nuru_img_s) (nug nuc : nuru_pal_s)
    (ncols : Z) (r : Z) : list term_out :=
  flat_map (fun c => print_cell nui nug nuc (nuru_img_get_cell nui c r)) (seqZ ncols)
  ++ [PUTWC NEWLINE].

(** What the driver writes when it visits the first [ncols] cells of each
    of the first [nrows] rows, row by row. *)
Definition area_out `{accessors} (nui : nuru_img_s) (nug nuc : nuru_pal_s)
    (ncols nrows : Z) : list term_out :=
  flat_map (row_out nui nug nuc ncols) (seqZ nrows).

(** What has been written when the driver reaches cell [(r, c)]: the rows
    above it and the cells to its left. *)
Definition written_before `{accessors} (nui : nuru_img_s) (nug nuc : nuru_pal_s)
    (ncols : Z) (r c : Z) : list term_out :=
  flat_map (row_out nui nug nuc ncols) (seqZ r) ++
  flat_map (fun c' => print_cell nui nug nuc (nuru_img_get_cell nui c' r)) (seqZ c).

(** The style of the terminal, as the color-set sequences in effect.  A
    call that writes the characters of [ANSI_FONT_RESET] clears it, a
    color-set sequence adds to it, and a glyph or a line break leaves it as
    it is. *)
Definition is_reset (o : term_out) : bool :=
  if list_eq_dec Z.eq_dec (render o) ANSI_FONT_RESET then true else false.

Definition is_color_set (o : term_out) : bool :=
  match o with
  | SGR _ | SGR_FG_8BIT _ | SGR_BG_8BIT _ | SGR_FG_RGB _ _ _ | SGR_BG_RGB _ _ _ => true
  | PUTWC _ | PUTWS _ => false
  end.

Definition style_step (style : list term_out) (o : term_out) : list term_out :=
  if is_reset o then []
  else if is_color_set o then style ++ [o]
  else style.

Definition style_after (style : list term_out) (out : list term_out) : list term_out :=
  fold_left style_step out style.

(** The SGR parameters that select one of the sixteen colors: 30-37 and
    90-97 for the foreground, 40-47 and 100-107 for the background. *)
Definition is_fg_color_code (n : Z) : bool :=
  ((30 <=? n) && (n <=? 37)) || ((90 <=? n) && (n <=? 97)).

Definition is_bg_color_code (n : Z) : bool :=
  ((40 <=? n) && (n <=? 47)) || ((100 <=? n) && (n <=? 107)).

(** The spec's reading of the 4-bit mode for the values 16-255: they are
    rejected, so no sequence that selects a color is written for them. *)
Definition direct4bit_rejects_out_of_range : Prop :=
  forall (cell : nuru_cell_s) (fg_key bg_key n : Z),
    (16 <= fg cell <= 255 -> fg cell <> fg_key ->
     In (SGR n) (print_color_4bit_fg cell fg_key) -> is_fg_color_code n = false) /\
    (16 <= bg cell <= 255 -> bg cell <> bg_key ->
     In (SGR n) (print_color_4bit_bg cell bg_key) -> is_bg_color_code n = false).

(** The spec's reading of a palette of the wrong type: the render reports
    an error, so its outcome differs from the outcome of every render of an
    image that uses no palette at all. *)
Definition palette_mismatch_is_reported : Prop :=
  forall (H : accessors) (nui nui' : nuru_img_s) (nug nuc nug' nuc' : nuru_pal_s)
         (cols rows cols' rows' : Z),
    color_mode nui = NURU_COLOR_MODE_PALETTE ->
    type nuc = NURU_PAL_TYPE_GLYPH ->
    0 < nuru.cols nui -> 0 < nuru.rows nui -> 0 < u16 cols -> 0 < u16 rows ->
    fg (nuru_img_get_cell nui 0 0) <> fg_key nui ->
    color_mode nui' = NURU_COLOR_MODE_NONE ->
    print_nui nui nug nuc cols rows <> print_nui nui' nug' nuc' cols' rows'.

(** ** Sample data *)

Definition no_name : string := EmptyString.

(** A grid of [ncols] by [nrows] cells; the cell in row [r] and column [c]
    holds the glyph [256 + 16 * r + c], the foreground [r] and the
    background [c]. *)
Definition grid_cells (ncols nrows : Z) : list nuru_cell_s :=
  flat_map (fun r => map (fun c => mk_cell (256 + 16 * r + c) r c) (seqZ ncols))
           (seqZ nrows).

Definition sample_img (cm : nuru_color_mode) (gm : nuru_glyph_mode)
    (ncols nrows : Z) : nuru_img_s :=
  mk_img "NURUIMG" 1 cm gm 0 ncols nrows 32 255 255 no_name no_name
         (grid_cells ncols nrows).

Definition red_palette : nuru_pal_s := ColorTableRGB [mk_rgb 255 0 0].

Definition glyph_palette : nuru_pal_s := GlyphTable [65; 66; 67].

Definition sample_system : system :=
  mk_system "nuru-cat" [("C"%char, EmptyString)] (Some "a.nui"%string)
            (fun _ => Some (sample_img NURU_COLOR_MODE_8BIT NURU_GLYPH_MODE_UNICODE 2 1))
            (fun _ => None) (fun _ _ => None) (ColorTable8Bit [])
            (Some (80, 24)) 1.

(** ** Looking up a palette by name in [nuru-cat.c] *)

(** What a call comes to: it returns a value, or it does not return in
    the ordinary way (the behaviour is undefined, or a loop does not
    end). *)
Inductive outcome (A : Type) : Type :=
| Stuck
| Returns (a : A).

Arguments Stuck {A}.
Arguments Returns {A} a.

Module named_palette.

Definition PROJECT_NAME : string := "nuru".

(** What the look-up takes from outside [nuru-cat.c]: the environment
    variables, the palette loader of [nuru.h] (a failed load is [None]),
    [PATH_MAX] of [limits.h], and [NURU_PAL_FILEEXT] and [NURU_STR_LEN] of
    [nuru.h]. *)
Record platform : Type := mk_platform {
  getenv : string -> option string;
  nuru_pal_load : string -> option nuru_pal_s;
  PATH_MAX : Z;
  NURU_PAL_FILEEXT : string;
  NURU_STR_LEN : Z
}.

(** [tolower] in the "C" locale, which is the locale at the time of the
    look-up ([main] calls [setlocale] later): the letters A-Z go to a-z and
    every other character stays. *)
Definition tolower (c : ascii) : ascii :=
  let n := nat_of_ascii c in
  if ((65 <=? n) && (n <=? 90))%nat then ascii_of_nat (n + 32) else c.

(** [make_lower], as the string it leaves in [str]. *)
Fixpoint make_lower (str : string) : string :=
  match str with
  | EmptyString => EmptyString
  | String c rest => String (tolower c) (make_lower rest)
  end.

(** [snprintf(buf, len, ...)] for the text [full] the format expands to:
    what it leaves in [buf] and what it returns.  It writes [len - 1]
    characters at most, and nothing when [len] is 0; it returns the length
    of the whole text. *)
Definition snprintf (buf : string) (len : Z) (full : string) : string * Z :=
  (if len =? 0 then buf else substring 0 (Z.to_nat (len - 1)) full,
   Z.of_nat (String.length full)).

(** [pal_path]: what it leaves in [buf], and its return value.  With
    neither variable set the format is given a null string, which is
    undefined. *)
Definition pal_path (p : platform) (buf : string) (len : Z) (pal type : string)
    : outcome (string * Z) :=
  let home := getenv p "HOME" in
  let config := getenv p "XDG_CONFIG_HOME" in
  match config with
  | Some config =>
      Returns (snprintf buf len
                 (config ++ "/" ++ PROJECT_NAME ++ "/" ++ type ++ "/" ++ pal
                  ++ "." ++ NURU_PAL_FILEEXT p))
  | None =>
      match home with
      | Some home =>
          Returns (snprintf buf len
                     (home ++ "/" ++ ".config" ++ "/" ++ PROJECT_NAME ++ "/" ++ type
                      ++ "/" ++ pal ++ "." ++ NURU_PAL_FILEEXT p))
      | None => Stuck
      end
  end.

(** [load_pal_by_name]: the palette it loads, or [None] for -1.  The copy
    into [pal_name], an array of [NURU_STR_LEN] characters, is undefined
    for a name that does not fit with its terminator.  [path] is written
    afresh, [PATH_MAX] being positive. *)
Definition load_pal_by_name (p : platform) (type name : string)
    : outcome (option nuru_pal_s) :=
  if NURU_STR_LEN p <=? Z.of_nat (String.length name) then Stuck
  else
    let pal_name := make_lower name in
    match pal_path p EmptyString (PATH_MAX p) pal_name type with
    | Returns (path, _) => Returns (nuru_pal_load p path)
    | Stuck => Stuck
    end.

End named_palette.

(** ** [main] of [nuru-view] *)

Module nuru_view_main.

Record options_s : Set := mk_options {
  img_file : option string;
  pal_file : option string;
  fg : Z;
  bg : Z;
  help : bool;
  version : bool
}.

Definition options_zero : options_s := mk_options None None 0 0 false false.

(** [parse_args] of [nuru-view], read as the one of [nuru-cat]. *)
Definition parse_args (parsed : list (ascii * string)) (operand : option string)
    (opts : options_s) : options_s :=
  let opts :=
    fold_left
      (fun (opts : options_s) (o : ascii * string) =>
         let (c, optarg) := o in
         if Ascii.eqb c "b" then
           mk_options (img_file opts) (pal_file opts) (fg opts) 1
                      (help opts) (version opts)
         else if Ascii.eqb c "f" then
           mk_options (img_file opts) (pal_file opts) 1 (bg opts)
                      (help opts) (version opts)
         else if Ascii.eqb c "h" then
           mk_options (img_file opts) (pal_file opts) (fg opts) (bg opts)
                      true (version opts)
         else if Ascii.eqb c "p" then
           mk_options (img_file opts) (Some optarg) (fg opts) (bg opts)
                      (help opts) (version opts)
         else if Ascii.eqb c "V" then
           mk_options (img_file opts) (pal_file opts) (fg opts) (bg opts)
                      (help opts) true
         else opts)
      parsed opts in
  match operand with
  | Some file =>
      mk_options (Some file) (pal_file opts) (fg opts) (bg opts)
                 (help opts) (version opts)
  | None => opts
  end.

(** What the system answers this [main].  The image loader is asked with
    the file name [main] has, which is null when the command line names no
    file; what it does then is for the loader to say. *)
Record system : Type := mk_system {
  argv0 : string;
  getopt : list (ascii * string);
  operand : option string;
  nuru_img_load : option string -> outcome (option nuru_img_s);
  nuru_pal_load : string -> option nuru_pal_s;
  term_wsize : option (Z * Z);
  fwide : Z
}.

Definition term_clear : list main_out :=
  [OUT (PUTWS ANSI_CLEAR_SCREEN); OUT (PUTWS ANSI_CURSOR_RESET)].

(** As in [nuru-cat], [TERM_ECHO on] is the call [term_echo(on)], whose
    result is dropped. *)
Definition term_setup (opts : options_s) : list main_out :=
  [OUT (PUTWS ANSI_HIDE_CURSOR); TERM_ECHO 0].

Definition term_reset : list main_out :=
  [OUT (PUTWS ANSI_FONT_RESET); OUT (PUTWS ANSI_SHOW_CURSOR); TERM_ECHO 1].

(** A null string given to [%s] is printed as glibc prints it. *)
Definition string_or_null (s : option string) : string :=
  match s with
  | Some s => s
  | None => "(null)"
  end.

(** [main] of [nuru-view]: the calls it makes and the exit status.  By
    the time [help] or [version] is called [stdout] is wide-oriented, so
    what their [fprintf] calls write, if anything, is not in the model:
    [HELP] and [VERSION] stand for the calls. *)
Definition main `{nuru_view.accessors} (sys : system) : outcome (list main_out * Z) :=
  if negb (fwide sys =? 1) then
    Returns ([STDERR "Couldn't put terminal in wide-character mode" ""], EXIT_FAILURE)
  else
    let opts := parse_args (getopt sys) (operand sys) options_zero in
    if help opts then Returns ([HELP (argv0 sys)], EXIT_SUCCESS)
    else if version opts then Returns ([VERSION], EXIT_SUCCESS)
    else
      let said :=
        match img_file opts with
        | None => [STDERR "No image file given" ""]
        | Some _ => []
        end in
      match term_wsize sys with
      | None =>
          Returns (said ++ [STDERR "Failed to determine terminal size" ""], EXIT_FAILURE)
      | Some (ws_col, ws_row) =>
        if (ws_col =? 0) || (ws_row =? 0) then
          Returns (said ++ [STDERR "Terminal size not appropriate" ""], EXIT_FAILURE)
        else
          match nuru_img_load sys (img_file opts) with
          | Stuck => Stuck
          | Returns None =>
              Returns (said ++ [STDERR "Error loading image file: "
                                       (string_or_null (img_file opts))],
                       EXIT_FAILURE)
          | Returns (Some nui) =>
            let loaded :=
              match pal_file opts with
              | Some file =>
                  match nuru_pal_load sys file with
                  | Some nup => inr (Some nup)
                  | None => inl file
                  end
              | None => inr None
              end in
            match loaded with
            | inl file =>
                Returns (said ++ [STDERR "Error loading palette file: " file],
                         EXIT_FAILURE)
            | inr pal =>
              match nuru_view.print_nui nui pal ws_col ws_row with
              | Some (out, _) =>
                  Returns (said ++ term_setup opts ++ term_clear ++ map OUT out
                           ++ [IMG_FREE] ++ term_reset,
                           EXIT_SUCCESS)
              | None => Stuck
              end
            end
          end
      end.

End nuru_view_main.

(** ** Further notions and sample data *)

Definition is_putwc (o : term_out) : bool :=
  match o with
  | PUTWC _ => true
  | _ => false
  end.

Definition is_putws (o : term_out) : bool :=
  match o with
  | PUTWS _ => true
  | _ => false
  end.

Definition count (f : term_out -> bool) (out : list term_out) : Z :=
  Z.of_nat (List.length (filter f out)).

(** [out] begins with [pre]. *)
Definition prefix_of (pre out : list term_out) : Prop :=
  exists rest, out = pre ++ rest.

Definition is_upper (c : ascii) : bool :=
  ((65 <=? nat_of_ascii c) && (nat_of_ascii c <=? 90))%nat.

Fixpoint string_forallb (f : ascii -> bool) (s : string) : bool :=
  match s with
  | EmptyString => true
  | String c rest => f c && string_forallb f rest
  end.

(** The option letters of a command line, as [getopt] returned them. *)
Definition has_option (c : ascii) (parsed : list (ascii * string)) : bool :=
  existsb (fun o => Ascii.eqb (fst o) c) parsed.

(** [sys] with another answer to the look-up of named palettes. *)
Definition with_named_palettes (sys : system)
    (lookup : string -> string -> option nuru_pal_s) : system :=
  mk_system (argv0 sys) (getopt sys) (operand sys) (nuru_img_load sys)
            (nuru_pal_load sys) lookup (nuru_pal_zero sys) (term_wsize sys) (fwide sys).

(** The accessors of [nuru-view] over the same tables. *)
Definition nuru_view_table_accessors : nuru_view.accessors := {|
  nuru_view.nuru_get_cell nui c r :=
    nth (Z.to_nat (r * cols nui + c)) (cells nui) (mk_cell 0 0 0);
  nuru_view.codepoints pal i :=
    match pal with
    | GlyphTable l => nth (Z.to_nat i) l 0
    | _ => 0
    end
|}.

Definition sample_platform : named_palette.platform :=
  named_palette.mk_platform
    (fun name => if String.eqb name "HOME" then Some "/home/u"%string else None)
    (fun path =>
       if String.eqb path "/home/u/.config/nuru/glyphs/box.nup" then Some glyph_palette
       else None)
    4096 "nup" 32.

Definition sample_view_system : nuru_view_main.system :=
  nuru_view_main.mk_system "nuru-view" [] None (fun _ => Returns None)
                           (fun _ => None) None 1.





(** What [pal_path] came to for the whole path [full] and a buffer of
    [len] characters: it returned the length of [full], and the buffer
    holds the beginning of [full], [len - 1] characters of it at most. *)
Definition path_in_buffer (res : outcome (string * Z)) (len : Z) (full : string) : Prop :=
  exists path rest : string,
    res = Returns (path, Z.of_nat (String.length full)) /\
    full = (path ++ rest)%string /\
    Z.of_nat (String.length path) = Z.min (len - 1) (Z.of_nat (String.length full)).

(** * Properties *)

(** ** Fixed-width integers *)

Lemma u16_range (z : Z) : 0 <= u16 z < 65536.
Proof. unfold u16. apply Z.mod_pos_bound. lia. Qed.

Lemma u16_small (z : Z) : 0 <= z < 65536 -> u16 z = z.
Proof. intros Hz. unfold u16. apply Z.mod_small. exact Hz. Qed.

Lemma u8_small (z : Z) : 0 <= z < 256 -> u8 z = z.
Proof. intros Hz. unfold u8. apply Z.mod_small. exact Hz. Qed.

Lemma u16_values_eq : Z.of_nat u16_values = 65536.
Proof. unfold u16_values. rewrite Z2Nat.id; lia. Qed.

(** ** The counting loop *)

Lemma seqZ_nonpos (n : Z) : n <= 0 -> seqZ n = [].
Proof.
  intros Hn. unfold seqZ.
  replace (Z.to_nat n) with 0%nat by lia. reflexivity.
Qed.

Lemma seqZ_succ (n : Z) : 0 <= n -> seqZ (n + 1) = seqZ n ++ [n].
Proof.
  intros Hn. unfold seqZ.
  replace (Z.to_nat (n + 1)) with (Z.to_nat n + 1)%nat by lia.
  rewrite seq_app, map_app. simpl.
  rewrite Z2Nat.id by exact Hn. reflexivity.
Qed.

Lemma in_seqZ (n i : Z) : In i (seqZ n) <-> 0 <= i < n.
Proof.
  unfold seqZ. rewrite in_map_iff. split.
  - intros [k [Hk Hin]]. apply in_seq in Hin. lia.
  - intros Hi. exists (Z.to_nat i). split; [lia|]. apply in_seq. lia.
Qed.

Lemma length_seqZ (n : Z) : List.length (seqZ n) = Z.to_nat n.
Proof. unfold seqZ. rewrite length_map, length_seq. reflexivity. Qed.

Lemma for_u16_cond_ext (cond cond' : Z -> bool) (body : Z -> option (list term_out)) :
  (forall j, cond j = cond' j) ->
  forall fuel i, for_u16 fuel cond body i = for_u16 fuel cond' body i.
Proof.
  intros Hext fuel. induction fuel as [|fuel IH]; intros i; simpl.
  - reflexivity.
  - rewrite Hext. destruct (cond' i); [|reflexivity].
    destruct (body i); [|reflexivity]. rewrite IH. reflexivity.
Qed.

Section ForLoop.

Variable bound : Z.
Variable body : Z -> option (list term_out).
Variable f : Z -> list term_out.
Hypothesis body_returns : forall j, body j = Some (f j).
Hypothesis bound_fits : bound <= 65535.

(** From counter value [i] the loop runs the body at [i, i+1, ..., bound-1]
    and stops, provided the fuel covers the tests it makes. *)
Lemma for_u16_from (n : nat) :
  forall (fuel : nat) (i : Z),
    0 <= i -> Z.of_nat n = Z.max 0 (bound - i) -> (n < fuel)%nat ->
    for_u16 fuel (fun j => j <? bound) body i
    = Some (flat_map f (map (fun k => i + Z.of_nat k) (seq 0 n))).
Proof.
  induction n as [|n IH]; intros fuel i Hi Hn Hfuel.
  - destruct fuel as [|fuel]; [lia|]. simpl.
    destruct (Z.ltb_spec i bound); [lia|reflexivity].
  - destruct fuel as [|fuel]; [lia|]. simpl.
    destruct (Z.ltb_spec i bound); [|lia].
    rewrite body_returns.
    rewrite u16_small by lia.
    rewrite (IH fuel (i + 1)) by lia.
    rewrite Z.add_0_r. do 3 f_equal.
    rewrite <- seq_shift, map_map.
    apply map_ext. intros k. lia.
Qed.

Lemma for_u16_all (fuel : nat) :
  (65536 <= Z.of_nat fuel) ->
  for_u16 fuel (fun j => j <? bound) body 0 = Some (flat_map f (seqZ bound)).
Proof.
  intros Hfuel.
  rewrite (for_u16_from (Z.to_nat bound)) by lia.
  unfold seqZ. do 2 f_equal.
Qed.

End ForLoop.

(** ** The driver in closed form *)

Lemma min_ltb (a b j : Z) : (j <? a) && (j <? b) = (j <? Z.min a b).
Proof.
  destruct (Z.ltb_spec j a), (Z.ltb_spec j b), (Z.ltb_spec j (Z.min a b));
    simpl; try reflexivity; lia.
Qed.

Lemma for_u16_clipped (a b : Z) (body : Z -> option (list term_out))
    (f : Z -> list term_out) :
  (forall j, body j = Some (f j)) -> 0 <= b < 65536 ->
  for_u16 u16_values (fun j => (j <? a) && (j <? b)) body 0
  = Some (flat_map f (seqZ (Z.min a b))).
Proof.
  intros Hbody Hb.
  rewrite (for_u16_cond_ext _ (fun j => j <? Z.min a b)) by (intros; apply min_ltb).
  apply for_u16_all; [exact Hbody|lia|rewrite u16_values_eq; lia].
Qed.

(** [print_nui] returns for every input, and writes the clipped area. *)
Lemma print_nui_closed `{accessors} (nui : nuru_img_s) (nug nuc : nuru_pal_s)
    (cols rows : Z) :
  print_nui nui nug nuc cols rows
  = Some (area_out nui nug nuc (Z.min (nuru.cols nui) (u16 cols))
                               (Z.min (nuru.rows nui) (u16 rows)), -1).
Proof.
  unfold print_nui.
  rewrite (for_u16_clipped _ _ _ (row_out nui nug nuc (Z.min (nuru.cols nui) (u16 cols)))).
  - reflexivity.
  - intros r.
    rewrite (for_u16_clipped _ _ _
               (fun c => print_cell nui nug nuc (nuru_img_get_cell nui c r))).
    + reflexivity.
    + reflexivity.
    + apply u16_range.
  - apply u16_range.
Qed.

(** ** The sentinel keys *)

(** The background statement of a color printer reads the background of
    the cell only, and the foreground statement the foreground only. *)
Lemma print_color_bg_reads_bg `{accessors} (cell cell' : nuru_cell_s) (bg_key : Z)
    (pal : nuru_pal_s) :
  bg cell = bg cell' ->
  print_color_4bit_bg cell bg_key = print_color_4bit_bg cell' bg_key /\
  print_color_8bit_bg cell bg_key = print_color_8bit_bg cell' bg_key /\
  print_color_pal_bg cell bg_key pal = print_color_pal_bg cell' bg_key pal.
Proof.
  intros Hbg.
  unfold print_color_4bit_bg, print_color_8bit_bg, print_color_pal_bg.
  rewrite Hbg. repeat split.
Qed.

Lemma print_color_fg_reads_fg `{accessors} (cell cell' : nuru_cell_s) (fg_key : Z)
    (pal : nuru_pal_s) :
  fg cell = fg cell' ->
  print_color_4bit_fg cell fg_key = print_color_4bit_fg cell' fg_key /\
  print_color_8bit_fg cell fg_key = print_color_8bit_fg cell' fg_key /\
  print_color_pal_fg cell fg_key pal = print_color_pal_fg cell' fg_key pal.
Proof.
  intros Hfg.
  unfold print_color_4bit_fg, print_color_8bit_fg, print_color_pal_fg.
  rewrite Hfg. repeat split.
Qed.







(** ** The 4-bit color mode *)

(** C2, as the code has it: a value that is not the key is written as one
    SGR sequence; the values 0-7 give 30-37 (foreground) and 40-47
    (background), the values 8-15 give 90-97 and 100-107, and the values
    16-255 are not rejected but give the value plus 82 (foreground) or
    plus 92 (background), reduced modulo 256. *)
Theorem print_color_4bit_codes (cell : nuru_cell_s) (fg_key bg_key : Z) :
  (0 <= fg cell <= 255 -> fg cell <> fg_key ->
   print_color_4bit_fg cell fg_key =
   [SGR (if fg cell <? 8 then 30 + fg cell
         else if fg cell <? 16 then 90 + (fg cell - 8)
         else (fg cell + 82) mod 256)]) /\
  (0 <= bg cell <= 255 -> bg cell <> bg_key ->
   print_color_4bit_bg cell bg_key =
   [SGR (if bg cell <? 8 then 40 + bg cell
         else if bg cell <? 16 then 100 + (bg cell - 8)
         else (bg cell + 92) mod 256)]).
Proof.
  split.
  - intros Hrange Hkey. unfold print_color_4bit_fg.
    destruct (Z.eqb_spec (fg cell) fg_key) as [Heq|_]; [contradiction|].
    cbv beta iota delta [negb].
    destruct (Z.ltb_spec (fg cell) 8).
    + rewrite u8_small by lia. rewrite (Z.add_comm 30). reflexivity.
    + destruct (Z.ltb_spec (fg cell) 16).
      * rewrite u8_small by lia.
        replace (90 + (fg cell - 8)) with (fg cell + 82) by lia. reflexivity.
      * reflexivity.
  - intros Hrange Hkey. unfold print_color_4bit_bg.
    destruct (Z.eqb_spec (bg cell) bg_key) as [Heq|_]; [contradiction|].
    cbv beta iota delta [negb].
    destruct (Z.ltb_spec (bg cell) 8).
    + rewrite u8_small by lia.
      replace (40 + bg cell) with (bg cell + 30 + 10) by lia. reflexivity.
    + destruct (Z.ltb_spec (bg cell) 16).
      * rewrite u8_small by lia.
        replace (100 + (bg cell - 8)) with (bg cell + 82 + 10) by lia. reflexivity.
      * replace (bg cell + 92) with (bg cell + 82 + 10) by lia. reflexivity.
Qed.

(** The values 0, 8, 15 and 16 of the spec's examples, and 255. *)
Lemma print_color_4bit_codes_witness :
  print_color_4bit (mk_cell 65 0 0) 255 255 = [SGR 30; SGR 40] /\
  print_color_4bit (mk_cell 65 8 8) 255 255 = [SGR 90; SGR 100] /\
  print_color_4bit (mk_cell 65 15 15) 255 255 = [SGR 97; SGR 107] /\
  print_color_4bit (mk_cell 65 16 16) 255 255 = [SGR 98; SGR 108] /\
  print_color_4bit (mk_cell 65 255 255) 0 0 = [SGR 81; SGR 91].
Proof.
  unfold print_color_4bit.
  refine (conj _ (conj _ (conj _ (conj _ _))));
    match goal with
    | |- print_color_4bit_fg ?c ?f ++ print_color_4bit_bg ?c ?b = _ =>
        destruct (print_color_4bit_codes c f b) as [Hfg Hbg];
        rewrite Hfg, Hbg; [reflexivity | simpl; lia ..]
    end.
Defined.

(** The value 204 is not the key and lies in 16-255, yet it is written as
    SGR 30, the sequence of the value 0: black. *)
Lemma direct4bit_out_of_range_not_rejected : ~ direct4bit_rejects_out_of_range.
Proof.
  intros Hclaim.
  destruct (Hclaim (mk_cell 65 204 0) 0 0 30) as [Hfg _].
  assert (Hcode : is_fg_color_code 30 = false).
  { apply Hfg; simpl; [lia|lia|]. left. reflexivity. }
  discriminate Hcode.
Qed.

(** ** The palette color mode *)

(** C5: under the palette color mode a value that is not the key is looked
    up in the palette; with an 8-bit color table the entry is written as a
    256-color sequence, with an RGB table as a true-color sequence that
    carries the three channels of the entry.  The other field of the cell
    is printed by its own statement, before or after. *)
Theorem palette_color_resolution `{accessors} (nui : nuru_img_s) (nuc : nuru_pal_s)
    (cell : nuru_cell_s) :
  color_mode nui = NURU_COLOR_MODE_PALETTE ->
  (fg cell <> fg_key nui ->
   (type nuc = NURU_PAL_TYPE_COLOR_8BIT ->
    print_cell_color nui nuc cell =
    SGR_FG_8BIT (u8 (nuru_pal_get_col_8bit nuc (fg cell)))
    :: print_color_pal_bg cell (bg_key nui) nuc) /\
   (type nuc = NURU_PAL_TYPE_COLOR_RGB ->
    print_cell_color nui nuc cell =
    SGR_FG_RGB (r (nuru_pal_get_col_rgb nuc (fg cell)))
               (g (nuru_pal_get_col_rgb nuc (fg cell)))
               (b (nuru_pal_get_col_rgb nuc (fg cell)))
    :: print_color_pal_bg cell (bg_key nui) nuc)) /\
  (bg cell <> bg_key nui ->
   (type nuc = NURU_PAL_TYPE_COLOR_8BIT ->
    print_cell_color nui nuc cell =
    print_color_pal_fg cell (fg_key nui) nuc
    ++ [SGR_BG_8BIT (u8 (nuru_pal_get_col_8bit nuc (bg cell)))]) /\
   (type nuc = NURU_PAL_TYPE_COLOR_RGB ->
    print_cell_color nui nuc cell =
    print_color_pal_fg cell (fg_key nui) nuc
    ++ [SGR_BG_RGB (r (nuru_pal_get_col_rgb nuc (bg cell)))
                   (g (nuru_pal_get_col_rgb nuc (bg cell)))
                   (b (nuru_pal_get_col_rgb nuc (bg cell)))])).
Proof.
  intros Hmode. unfold print_cell_color. rewrite Hmode. unfold print_color_pal.
  split; intros Hkey; split; intros Htype.
  - unfold print_color_pal_fg at 1.
    destruct (Z.eqb_spec (fg cell) (fg_key nui)); [contradiction|].
    rewrite Htype. reflexivity.
  - unfold print_color_pal_fg at 1.
    destruct (Z.eqb_spec (fg cell) (fg_key nui)); [contradiction|].
    rewrite Htype. reflexivity.
  - unfold print_color_pal_bg at 1.
    destruct (Z.eqb_spec (bg cell) (bg_key nui)); [contradiction|].
    rewrite Htype. reflexivity.
  - unfold print_color_pal_bg at 1.
    destruct (Z.eqb_spec (bg cell) (bg_key nui)); [contradiction|].
    rewrite Htype. reflexivity.
Qed.

(** The spec's example: the RGB palette with the one entry (255, 0, 0) and
    a cell whose foreground index is 0 and whose background is the key. *)
Lemma palette_color_resolution_witness :
  let nui := sample_img NURU_COLOR_MODE_PALETTE NURU_GLYPH_MODE_NONE 1 1 in
  let cell := mk_cell 65 0 255 in
  print_cell_color (H := table_accessors) nui red_palette cell = [SGR_FG_RGB 255 0 0] /\
  render (SGR_FG_RGB 255 0 0) = ESC :: wstr "[38;2;255;0;0m".
Proof.
  intros nui cell. split; [|reflexivity].
  destruct (palette_color_resolution (H := table_accessors) nui red_palette cell eq_refl)
    as [Hfg _].
  destruct Hfg as [_ Hrgb]; [discriminate|].
  rewrite Hrgb; reflexivity.
Defined.

(** C3, as the code has it: with a palette that is neither an 8-bit nor an
    RGB color table the color printer writes nothing and the cell goes on
    to its glyph and its font reset; with a color table the accessor is
    called with the value as it is and what it gives back is written, with
    no test of the index; and the driver returns what it returns for every
    other render. *)
Theorem palette_faults_pass_silently `{accessors} (nui : nuru_img_s)
    (nug nuc : nuru_pal_s) (cell : nuru_cell_s) (cols rows : Z) :
  color_mode nui = NURU_COLOR_MODE_PALETTE ->
  (type nuc = NURU_PAL_TYPE_GLYPH ->
   print_color_pal cell (fg_key nui) (bg_key nui) nuc = [] /\
   print_cell nui nug nuc cell = print_cell_glyph nui nug cell ++ [PUTWS ANSI_FONT_RESET]) /\
  (fg cell <> fg_key nui ->
   (type nuc = NURU_PAL_TYPE_COLOR_8BIT ->
    print_color_pal_fg cell (fg_key nui) nuc
    = [SGR_FG_8BIT (u8 (nuru_pal_get_col_8bit nuc (fg cell)))]) /\
   (type nuc = NURU_PAL_TYPE_COLOR_RGB ->
    print_color_pal_fg cell (fg_key nui) nuc
    = [SGR_FG_RGB (r (nuru_pal_get_col_rgb nuc (fg cell)))
                  (g (nuru_pal_get_col_rgb nuc (fg cell)))
                  (b (nuru_pal_get_col_rgb nuc (fg cell)))])) /\
  (bg cell <> bg_key nui ->
   (type nuc = NURU_PAL_TYPE_COLOR_8BIT ->
    print_color_pal_bg cell (bg_key nui) nuc
    = [SGR_BG_8BIT (u8 (nuru_pal_get_col_8bit nuc (bg cell)))]) /\
   (type nuc = NURU_PAL_TYPE_COLOR_RGB ->
    print_color_pal_bg cell (bg_key nui) nuc
    = [SGR_BG_RGB (r (nuru_pal_get_col_rgb nuc (bg cell)))
                  (g (nuru_pal_get_col_rgb nuc (bg cell)))
                  (b (nuru_pal_get_col_rgb nuc (bg cell)))])) /\
  (exists out, print_nui nui nug nuc cols rows = Some (out, -1)).
Proof.
  intros Hmode.
  assert (Hnone : type nuc = NURU_PAL_TYPE_GLYPH ->
                  print_color_pal cell (fg_key nui) (bg_key nui) nuc = []).
  { intros Htype.
    unfold print_color_pal, print_color_pal_fg, print_color_pal_bg.
    rewrite Htype. destruct (negb _), (negb _); reflexivity. }
  split; [|split; [|split]].
  - intros Htype. split; [exact (Hnone Htype)|].
    unfold print_cell, print_cell_color. rewrite Hmode, (Hnone Htype). reflexivity.
  - intros Hkey. unfold print_color_pal_fg.
    destruct (Z.eqb_spec (fg cell) (fg_key nui)); [contradiction|].
    split; intros Htype; rewrite Htype; reflexivity.
  - intros Hkey. unfold print_color_pal_bg.
    destruct (Z.eqb_spec (bg cell) (bg_key nui)); [contradiction|].
    split; intros Htype; rewrite Htype; reflexivity.
  - eexists. apply print_nui_closed.
Qed.

(** A glyph table given as the color palette of a one-cell image. *)
Lemma palette_faults_pass_silently_witness :
  let nui := sample_img NURU_COLOR_MODE_PALETTE NURU_GLYPH_MODE_UNICODE 1 1 in
  print_cell (H := table_accessors) nui glyph_palette glyph_palette (mk_cell 65 1 2)
  = [PUTWC 65; PUTWS ANSI_FONT_RESET].
Proof.
  intros nui.
  destruct (palette_faults_pass_silently (H := table_accessors) nui glyph_palette
              glyph_palette (mk_cell 65 1 2) 80 24 eq_refl) as [Hglyph _].
  destruct (Hglyph eq_refl) as [_ Hcell].
  rewrite Hcell. reflexivity.
Defined.

(** A one-cell image in palette color mode, rendered with a glyph table as
    its color palette, comes out as the same image in color mode none
    does, return value included: the fault is not reported. *)
Lemma palette_mismatch_not_reported : ~ palette_mismatch_is_reported.
Proof.
  intros Hclaim.
  apply (Hclaim table_accessors
           (sample_img NURU_COLOR_MODE_PALETTE NURU_GLYPH_MODE_UNICODE 1 1)
           (sample_img NURU_COLOR_MODE_NONE NURU_GLYPH_MODE_UNICODE 1 1)
           glyph_palette glyph_palette glyph_palette glyph_palette 80 24 80 24).
  - reflexivity.
  - reflexivity.
  - reflexivity.
  - reflexivity.
  - reflexivity.
  - reflexivity.
  - vm_compute. discriminate.
  - reflexivity.
  - vm_compute. reflexivity.
Qed.

(** ** The glyph modes *)

(** C6: under the glyph mode none the glyph written for a cell is the
    blank, a space, whatever glyph the cell stores. *)
Theorem glyph_mode_none_blank `{accessors} (nui : nuru_img_s) (nug nuc : nuru_pal_s)
    (cell : nuru_cell_s) :
  glyph_mode nui = NURU_GLYPH_MODE_NONE ->
  print_cell_glyph nui nug cell = [PUTWC NURU_SPACE] /\
  render_all (print_cell_glyph nui nug cell) = wstr " " /\
  print_cell nui nug nuc cell
  = print_cell_color nui nuc cell ++ [PUTWC NURU_SPACE; PUTWS ANSI_FONT_RESET].
Proof.
  intros Hmode. unfold print_cell, print_cell_glyph. rewrite Hmode.
  repeat split.
Qed.

(** A cell that stores the letter A, in an image of glyph mode none. *)
Lemma glyph_mode_none_blank_witness :
  print_cell_glyph (H := table_accessors)
    (sample_img NURU_COLOR_MODE_8BIT NURU_GLYPH_MODE_NONE 1 1) glyph_palette
    (mk_cell 65 1 2)
  = [PUTWC 32].
Proof.
  apply (glyph_mode_none_blank (H := table_accessors)
           (sample_img NURU_COLOR_MODE_8BIT NURU_GLYPH_MODE_NONE 1 1)
           glyph_palette glyph_palette (mk_cell 65 1 2) eq_refl).
Defined.

(** C9: the ASCII and the Unicode glyph printers write the same for every
    cell and every key: the blank for the key, and otherwise the stored
    value as it is, which the ASCII printer does not narrow. *)
Theorem print_glyph_ascii_unicode_equal (cell : nuru_cell_s) (ch_key : Z) :
  print_glyph_ascii cell ch_key = print_glyph_unicode cell ch_key /\
  print_glyph_ascii cell ch_key
  = (if ch cell =? ch_key then [PUTWC NURU_SPACE] else [PUTWC (ch cell)]).
Proof.
  split; reflexivity.
Qed.

(** ** The render driver *)

(** C4: the driver visits the cells of the rows [0 .. min(rows of the
    image, rows of the area) - 1] and, in each, of the columns [0 ..
    min(columns of the image, columns of the area) - 1], row by row and
    from left to right in a row, writes a line break after each row it
    visited, and fetches no other cell. *)
Theorem print_nui_clips `{accessors} (nui : nuru_img_s) (nug nuc : nuru_pal_s)
    (cols rows : Z) :
  0 <= cols < 65536 -> 0 <= rows < 65536 ->
  print_nui nui nug nuc cols rows =
  Some (flat_map
          (fun r =>
             flat_map (fun c => print_cell nui nug nuc (nuru_img_get_cell nui c r))
                      (seqZ (Z.min (nuru.cols nui) cols))
             ++ [PUTWC NEWLINE])
          (seqZ (Z.min (nuru.rows nui) rows)),
        -1).
Proof.
  intros Hcols Hrows.
  rewrite print_nui_closed, (u16_small cols Hcols), (u16_small rows Hrows).
  reflexivity.
Qed.

(** The spec's example: an image of 10 columns and 5 rows in an area of 4
    columns and 2 rows.  The glyph of the cell in row [r] and column [c] is
    [256 + 16 * r + c], so the cells written are (0,0) to (0,3) and (1,0)
    to (1,3). *)
Lemma print_nui_clips_witness :
  print_nui (H := table_accessors)
    (sample_img NURU_COLOR_MODE_NONE NURU_GLYPH_MODE_UNICODE 10 5)
    glyph_palette red_palette 4 2
  = Some ([PUTWC 256; PUTWS ANSI_FONT_RESET; PUTWC 257; PUTWS ANSI_FONT_RESET;
           PUTWC 258; PUTWS ANSI_FONT_RESET; PUTWC 259; PUTWS ANSI_FONT_RESET;
           PUTWC NEWLINE;
           PUTWC 272; PUTWS ANSI_FONT_RESET; PUTWC 273; PUTWS ANSI_FONT_RESET;
           PUTWC 274; PUTWS ANSI_FONT_RESET; PUTWC 275; PUTWS ANSI_FONT_RESET;
           PUTWC NEWLINE],
          -1).
Proof.
  rewrite (print_nui_clips (H := table_accessors)) by lia.
  reflexivity.
Defined.

(** ** The font reset after each cell *)

Lemma seqZ_split (n i : Z) :
  0 <= i < n -> exists rest, seqZ n = seqZ i ++ i :: rest.
Proof.
  intros Hi. unfold seqZ.
  replace (Z.to_nat n) with (Z.to_nat i + S (Z.to_nat (n - i - 1)))%nat by lia.
  rewrite seq_app, map_app. simpl.
  rewrite Z2Nat.id by lia.
  eexists. reflexivity.
Qed.

Lemma style_after_app (style : list term_out) (out out' : list term_out) :
  style_after style (out ++ out') = style_after (style_after style out) out'.
Proof. unfold style_after. apply fold_left_app. Qed.

Lemma style_after_reset (style : list term_out) (out : list term_out) :
  style_after style (out ++ [PUTWS ANSI_FONT_RESET]) = [].
Proof. rewrite style_after_app. reflexivity. Qed.

Lemma style_after_newline (out : list term_out) :
  style_after [] (out ++ [PUTWC NEWLINE]) = style_after [] out.
Proof. rewrite style_after_app. reflexivity. Qed.

Lemma style_after_cell `{accessors} (nui : nuru_img_s) (nug nuc : nuru_pal_s)
    (cell : nuru_cell_s) (style : list term_out) (out : list term_out) :
  style_after style (out ++ print_cell nui nug nuc cell) = [].
Proof.
  unfold print_cell. rewrite !app_assoc. apply style_after_reset.
Qed.

(** After one cell or more the style is clear. *)
Lemma style_after_cells `{accessors} (nui : nuru_img_s) (nug nuc : nuru_pal_s)
    (r n : Z) (style : list term_out) (out : list term_out) :
  0 < n ->
  style_after style
    (out ++ flat_map (fun c => print_cell nui nug nuc (nuru_img_get_cell nui c r)) (seqZ n))
  = [].
Proof.
  intros Hn.
  replace n with (n - 1 + 1) by lia.
  rewrite seqZ_succ by lia.
  rewrite flat_map_app. simpl. rewrite app_nil_r, app_assoc.
  apply style_after_cell.
Qed.

(** C7: every cell the driver prints ends with the font reset, so that
    once a cell is printed no color-set sequence is in effect, and none is
    when a later cell begins, whatever the style was before the render. *)
Theorem cell_colors_do_not_bleed `{accessors} (nui : nuru_img_s) (nug nuc : nuru_pal_s)
    (cols rows : Z) (r c : Z) :
  let ncols := Z.min (nuru.cols nui) (u16 cols) in
  let nrows := Z.min (nuru.rows nui) (u16 rows) in
  let cell := nuru_img_get_cell nui c r in
  0 <= r < nrows -> 0 <= c < ncols ->
  exists out rest,
    print_nui nui nug nuc cols rows = Some (out, -1) /\
    out = written_before nui nug nuc ncols r c ++ print_cell nui nug nuc cell ++ rest /\
    print_cell nui nug nuc cell
    = print_cell_color nui nuc cell ++ print_cell_glyph nui nug cell
      ++ [PUTWS ANSI_FONT_RESET] /\
    (forall style,
        style_after style
          (written_before nui nug nuc ncols r c ++ print_cell nui nug nuc cell) = []) /\
    (forall style,
        0 < r \/ 0 < c ->
        style_after style (written_before nui nug nuc ncols r c) = []).
Proof.
  intros ncols nrows cell Hr Hc.
  destruct (seqZ_split nrows r Hr) as [rows_below Hrows].
  destruct (seqZ_split ncols c Hc) as [cols_right Hcols].
  eexists. eexists.
  split; [apply print_nui_closed|].
  split; [|split; [reflexivity|split]].
  - fold ncols nrows. unfold area_out, written_before.
    rewrite Hrows, flat_map_app. simpl.
    unfold row_out at 2. rewrite Hcols, flat_map_app. simpl.
    fold cell. rewrite <- !app_assoc. reflexivity.
  - intros style. apply style_after_cell.
  - intros style [Hpos|Hpos].
    + unfold written_before.
      destruct (Z.eq_dec c 0) as [Hzero|Hnonzero].
      * subst c. rewrite (seqZ_nonpos 0) by lia. simpl. rewrite app_nil_r.
        replace r with (r - 1 + 1) by lia.
        rewrite seqZ_succ by lia.
        rewrite flat_map_app. simpl. rewrite app_nil_r.
        unfold row_out at 2. rewrite app_assoc, style_after_app.
        rewrite style_after_cells by lia. reflexivity.
      * apply style_after_cells. lia.
    + unfold written_before. apply style_after_cells. lia.
Qed.

(** The second cell of the second row of a two-by-two image in 8-bit color
    mode. *)
Lemma cell_colors_do_not_bleed_witness :
  let nui := sample_img NURU_COLOR_MODE_8BIT NURU_GLYPH_MODE_UNICODE 2 2 in
  style_after [SGR 1]
    (written_before (H := table_accessors) nui glyph_palette red_palette 2 1 1) = [] /\
  written_before (H := table_accessors) nui glyph_palette red_palette 2 1 1
  = [SGR_FG_8BIT 0; SGR_BG_8BIT 0; PUTWC 256; PUTWS ANSI_FONT_RESET;
     SGR_FG_8BIT 0; SGR_BG_8BIT 1; PUTWC 257; PUTWS ANSI_FONT_RESET;
     PUTWC NEWLINE;
     SGR_FG_8BIT 1; SGR_BG_8BIT 0; PUTWC 272; PUTWS ANSI_FONT_RESET].
Proof.
  intros nui. split; [|reflexivity].
  destruct (cell_colors_do_not_bleed (H := table_accessors) nui glyph_palette
              red_palette 80 24 1 1) as [out [rest [_ [_ [_ [_ Hclear]]]]]].
  - vm_compute. split; [discriminate|reflexivity].
  - vm_compute. split; [discriminate|reflexivity].
  - apply (Hclear [SGR 1]). left. lia.
Defined.

(** ** The two printers *)

Lemma render_all_app (out out' : list term_out) :
  render_all (out ++ out') = render_all out ++ render_all out'.
Proof. unfold render_all. apply flat_map_app. Qed.

(** The printer of [nuru-view] returns when the dimensions of the image
    are 16-bit values, and writes every cell of the image. *)
Lemma nuru_view_print_nui_closed `{nuru_view.accessors} (img : nuru_img_s)
    (pal : option nuru_pal_s) (cols rows : Z) :
  nuru.cols img <= 65535 -> nuru.rows img <= 65535 ->
  nuru_view.print_nui img pal cols rows =
  Some (flat_map
          (fun r =>
             flat_map (fun c => nuru_view.print_cell img pal (nuru_view.nuru_get_cell img c r))
                      (seqZ (nuru.cols img))
             ++ [PUTWC NEWLINE])
          (seqZ (nuru.rows img)),
        -1).
Proof.
  intros Hcols Hrows. unfold nuru_view.print_nui.
  rewrite (for_u16_all (nuru.rows img) _
             (fun r =>
                flat_map (fun c => nuru_view.print_cell img pal (nuru_view.nuru_get_cell img c r))
                         (seqZ (nuru.cols img))
                ++ [PUTWC NEWLINE])).
  - reflexivity.
  - intros r.
    rewrite (for_u16_all (nuru.cols img) _
               (fun c => nuru_view.print_cell img pal (nuru_view.nuru_get_cell img c r))).
    + reflexivity.
    + reflexivity.
    + exact Hcols.
    + rewrite u16_values_eq. lia.
  - exact Hrows.
  - rewrite u16_values_eq. lia.
Qed.

(** A cell printed by [nuru-view] takes five characters or more. *)
Lemma nuru_view_cell_length `{nuru_view.accessors} (img : nuru_img_s)
    (pal : option nuru_pal_s) (cell : nuru_cell_s) :
  (5 <= List.length (render_all (nuru_view.print_cell img pal cell)))%nat.
Proof.
  unfold nuru_view.print_cell.
  rewrite !render_all_app, !length_app. simpl. lia.
Qed.

(** C8: the two printers are not equivalent.  For an image of one column
    and two rows with both modes none, in an area of one column and one
    row, [print_nui] of [nuru-cat] writes one blank cell and one line
    break, and [print_nui] of [nuru-view], which does not read the area,
    writes two cells and two line breaks; the characters on the terminal
    differ, whatever the accessors give. *)
Theorem printers_differ `{nuru.accessors} `{nuru_view.accessors} :
  exists (nui : nuru_img_s) (nug nuc : nuru_pal_s) (pal : option nuru_pal_s)
         (cols rows : Z) (out out' : list term_out),
    print_nui nui nug nuc cols rows = Some (out, -1) /\
    nuru_view.print_nui nui pal cols rows = Some (out', -1) /\
    render_all out <> render_all out'.
Proof.
  exists (sample_img NURU_COLOR_MODE_NONE NURU_GLYPH_MODE_NONE 1 2).
  exists glyph_palette, red_palette, None, 1, 1.
  eexists. eexists.
  split; [apply print_nui_closed|].
  split; [apply nuru_view_print_nui_closed; simpl; lia|].
  intros Heq. apply (f_equal (@List.length Z)) in Heq.
  revert Heq.
  change (seqZ (nuru.rows (sample_img NURU_COLOR_MODE_NONE NURU_GLYPH_MODE_NONE 1 2)))
    with [0; 1].
  change (seqZ (nuru.cols (sample_img NURU_COLOR_MODE_NONE NURU_GLYPH_MODE_NONE 1 2)))
    with [0].
  cbn [flat_map].
  rewrite !app_nil_r, !render_all_app, !length_app.
  match goal with
  | |- context [nuru_view.print_cell ?img ?pal ?c0] =>
      pose proof (nuru_view_cell_length img pal c0) as Hfirst
  end.
  change (List.length
            (render_all
               (area_out (sample_img NURU_COLOR_MODE_NONE NURU_GLYPH_MODE_NONE 1 2)
                  glyph_palette red_palette
                  (Z.min (nuru.cols (sample_img NURU_COLOR_MODE_NONE NURU_GLYPH_MODE_NONE 1 2))
                         (u16 1))
                  (Z.min (nuru.rows (sample_img NURU_COLOR_MODE_NONE NURU_GLYPH_MODE_NONE 1 2))
                         (u16 1)))))
    with 6%nat.
  pose proof (nuru_view_cell_length
                (sample_img NURU_COLOR_MODE_NONE NURU_GLYPH_MODE_NONE 1 2) None
                (nuru_view.nuru_get_cell
                   (sample_img NURU_COLOR_MODE_NONE NURU_GLYPH_MODE_NONE 1 2) 0 1))
    as Hsecond.
  simpl List.length. lia.
Qed.

(** ** The return value of the driver *)

(** [main] with a printer whose return value is replaced by [k]. *)
Lemma main_with_return_value `{accessors}
    (display : nuru_img_s -> nuru_pal_s -> nuru_pal_s -> Z -> Z -> option (list term_out * Z))
    (k : Z) (sys : system) :
  main_with (fun nui nug nuc cols rows =>
               option_map (fun res => (fst res, k)) (display nui nug nuc cols rows)) sys
  = main_with display sys.
Proof.
  unfold main_with.
  repeat match goal with
         | |- context [match ?x with _ => _ end] =>
             lazymatch x with
             | option_map _ _ => fail
             | _ => destruct x
             end
         end;
    try reflexivity.
Qed.

(** When the image was released, [main] has gone past every early exit. *)
Lemma main_with_status `{accessors}
    (display : nuru_img_s -> nuru_pal_s -> nuru_pal_s -> Z -> Z -> option (list term_out * Z))
    (sys : system) (trace : list main_out) (status : Z) :
  main_with display sys = Some (trace, status) ->
  In IMG_FREE trace -> status = EXIT_SUCCESS.
Proof.
  unfold main_with.
  repeat match goal with
         | |- context [match ?x with _ => _ end] => destruct x
         end;
    intros Hrun Hfree; inversion Hrun; subst; try reflexivity;
    simpl in Hfree; intuition discriminate.
Qed.

(** C10: [print_nui] returns -1 for every image, pair of palettes and
    area, a complete render included; [main] does not read the value, for
    it runs the same with any other value in its place, and once the image
    was displayed and released it exits with [EXIT_SUCCESS]. *)
Theorem print_nui_returns_minus_one `{accessors} :
  (forall (nui : nuru_img_s) (nug nuc : nuru_pal_s) (cols rows : Z),
      exists out, print_nui nui nug nuc cols rows = Some (out, -1)) /\
  (forall (k : Z) (sys : system),
      main_with (fun nui nug nuc cols rows =>
                   option_map (fun res => (fst res, k)) (print_nui nui nug nuc cols rows)) sys
      = main sys) /\
  (forall (sys : system), exists trace status, main sys = Some (trace, status)) /\
  (forall (sys : system) (trace : list main_out) (status : Z),
      main sys = Some (trace, status) -> In IMG_FREE trace -> status = EXIT_SUCCESS).
Proof.
  split; [|split; [|split]].
  - intros. eexists. apply print_nui_closed.
  - intros k sys. apply main_with_return_value.
  - intros sys. unfold main, main_with.
    repeat match goal with
           | |- context [match ?x with _ => _ end] =>
               lazymatch x with
               | print_nui _ _ _ _ _ => rewrite print_nui_closed
               | _ => destruct x
               end
           end;
      eexists; eexists; reflexivity.
  - intros sys trace status. apply main_with_status.
Qed.

(** A run of [main] that displays a two-cell image and exits with 0. *)
Lemma print_nui_returns_minus_one_witness :
  main (H := table_accessors) sample_system
  = Some ([OUT (PUTWS ANSI_HIDE_CURSOR); TERM_ECHO 0;
           OUT (PUTWS ANSI_CLEAR_SCREEN); OUT (PUTWS ANSI_CURSOR_RESET);
           OUT (SGR_FG_8BIT 0); OUT (SGR_BG_8BIT 0); OUT (PUTWC 256);
           OUT (PUTWS ANSI_FONT_RESET);
           OUT (SGR_FG_8BIT 0); OUT (SGR_BG_8BIT 1); OUT (PUTWC 257);
           OUT (PUTWS ANSI_FONT_RESET);
           OUT (PUTWC NEWLINE);
           IMG_FREE;
           OUT (PUTWS ANSI_FONT_RESET); OUT (PUTWS ANSI_SHOW_CURSOR); TERM_ECHO 1],
          EXIT_SUCCESS).
Proof.
  destruct (print_nui_returns_minus_one (H := table_accessors)) as [_ [_ [_ Hexit]]].
  destruct (main (H := table_accessors) sample_system) as [[trace status]|] eqn:Hrun.
  - rewrite (Hexit sample_system trace status Hrun).
    + vm_compute in Hrun. injection Hrun as Htrace _. rewrite <- Htrace. reflexivity.
    + vm_compute in Hrun. injection Hrun as Htrace _. rewrite <- Htrace.
      simpl. do 13 right. left. reflexivity.
  - vm_compute in Hrun. discriminate Hrun.
Defined.

(** * Further properties of the code *)

(** ** The area and the image *)

Lemma seqZ_prefix (a b : Z) : a <= b -> exists rest, seqZ b = seqZ a ++ rest.
Proof.
  intros Hab. unfold seqZ.
  replace (Z.to_nat b) with (Z.to_nat a + (Z.to_nat b - Z.to_nat a))%nat by lia.
  rewrite seq_app, map_app. eexists. reflexivity.
Qed.

(** X1: an area that covers the image shows all of it: every such area
    gives the same output, the cells of all the rows and columns of the
    image. *)
Theorem print_nui_area_covers_image `{accessors} (nui : nuru_img_s)
    (nug nuc : nuru_pal_s) (cols rows cols' rows' : Z) :
  nuru.cols nui <= cols < 65536 -> nuru.rows nui <= rows < 65536 ->
  nuru.cols nui <= cols' < 65536 -> nuru.rows nui <= rows' < 65536 ->
  0 <= nuru.cols nui -> 0 <= nuru.rows nui ->
  print_nui nui nug nuc cols rows
  = Some (area_out nui nug nuc (nuru.cols nui) (nuru.rows nui), -1) /\
  print_nui nui nug nuc cols' rows' = print_nui nui nug nuc cols rows.
Proof.
  intros Hc Hr Hc' Hr' Hcols Hrows.
  rewrite !print_nui_closed.
  rewrite !u16_small by lia.
  rewrite !Z.min_l by lia. split; reflexivity.
Qed.

Lemma print_nui_area_covers_image_witness :
  print_nui (H := table_accessors)
    (sample_img NURU_COLOR_MODE_NONE NURU_GLYPH_MODE_UNICODE 2 1)
    glyph_palette red_palette 200 50
  = print_nui (H := table_accessors)
      (sample_img NURU_COLOR_MODE_NONE NURU_GLYPH_MODE_UNICODE 2 1)
      glyph_palette red_palette 80 24.
Proof.
  apply (print_nui_area_covers_image (H := table_accessors)); simpl; lia.
Defined.

(** X2: with the same number of columns, what is written for an area of
    fewer rows is the beginning of what is written for an area of more
    rows. *)
Theorem print_nui_rows_prefix `{accessors} (nui : nuru_img_s)
    (nug nuc : nuru_pal_s) (cols rows rows' : Z) :
  0 <= rows <= rows' -> rows' < 65536 ->
  exists out out',
    print_nui nui nug nuc cols rows = Some (out, -1) /\
    print_nui nui nug nuc cols rows' = Some (out', -1) /\
    prefix_of out out'.
Proof.
  intros Hrows Hmax.
  eexists. eexists.
  split; [apply print_nui_closed|].
  split; [apply print_nui_closed|].
  rewrite !(u16_small rows), !(u16_small rows') by lia.
  destruct (seqZ_prefix (Z.min (nuru.rows nui) rows) (Z.min (nuru.rows nui) rows'))
    as [rest Hrest]; [lia|].
  unfold prefix_of, area_out. rewrite Hrest, flat_map_app.
  eexists. reflexivity.
Qed.

Lemma print_nui_rows_prefix_witness :
  exists out out',
    print_nui (H := table_accessors)
      (sample_img NURU_COLOR_MODE_8BIT NURU_GLYPH_MODE_UNICODE 3 3)
      glyph_palette red_palette 2 1 = Some (out, -1) /\
    print_nui (H := table_accessors)
      (sample_img NURU_COLOR_MODE_8BIT NURU_GLYPH_MODE_UNICODE 3 3)
      glyph_palette red_palette 2 2 = Some (out', -1) /\
    prefix_of out out'.
Proof.
  apply (print_nui_rows_prefix (H := table_accessors)); lia.
Defined.

(** X3: when the image or the area has no row nothing is written, and
    when the image or the area has no column only the line breaks of the
    rows visited are. *)
Theorem print_nui_empty `{accessors} (nui : nuru_img_s) (nug nuc : nuru_pal_s)
    (cols rows : Z) :
  (nuru.rows nui <= 0 \/ u16 rows = 0 ->
   print_nui nui nug nuc cols rows = Some ([], -1)) /\
  (nuru.cols nui <= 0 \/ u16 cols = 0 ->
   print_nui nui nug nuc cols rows
   = Some (flat_map (fun _ => [PUTWC NEWLINE])
                    (seqZ (Z.min (nuru.rows nui) (u16 rows))), -1)).
Proof.
  split; intros Hempty; rewrite print_nui_closed; unfold area_out.
  - rewrite seqZ_nonpos by lia. reflexivity.
  - do 2 f_equal. apply flat_map_ext. intros r.
    unfold row_out. rewrite seqZ_nonpos by lia. reflexivity.
Qed.

Lemma print_nui_empty_witness :
  print_nui (H := table_accessors)
    (sample_img NURU_COLOR_MODE_8BIT NURU_GLYPH_MODE_UNICODE 3 2)
    glyph_palette red_palette 0 24
  = Some ([PUTWC NEWLINE; PUTWC NEWLINE], -1) /\
  print_nui (H := table_accessors)
    (sample_img NURU_COLOR_MODE_8BIT NURU_GLYPH_MODE_UNICODE 3 2)
    glyph_palette red_palette 80 65536
  = Some ([], -1).
Proof.
  destruct (print_nui_empty (H := table_accessors)
              (sample_img NURU_COLOR_MODE_8BIT NURU_GLYPH_MODE_UNICODE 3 2)
              glyph_palette red_palette 0 24) as [_ Hcols].
  destruct (print_nui_empty (H := table_accessors)
              (sample_img NURU_COLOR_MODE_8BIT NURU_GLYPH_MODE_UNICODE 3 2)
              glyph_palette red_palette 80 65536) as [Hrows _].
  split.
  - rewrite Hcols; [reflexivity|right; reflexivity].
  - apply Hrows. right. reflexivity.
Defined.

(** ** What a cell takes on the terminal *)

Lemma count_app (f : term_out -> bool) (out out' : list term_out) :
  count f (out ++ out') = count f out + count f out'.
Proof. unfold count. rewrite filter_app, length_app. lia. Qed.

Lemma count_flat_map (f : term_out -> bool) (g : Z -> list term_out) (k : Z)
    (l : list Z) :
  (forall i, count f (g i) = k) ->
  count f (flat_map g l) = k * Z.of_nat (List.length l).
Proof.
  intros Hk. induction l as [|i l IH].
  - simpl. unfold count. simpl. lia.
  - cbn [flat_map List.length]. rewrite count_app, Hk, IH. lia.
Qed.

Lemma count_flat_map_le (f : term_out -> bool) (g : Z -> list term_out) (k : Z)
    (l : list Z) :
  (forall i, count f (g i) <= k) ->
  count f (flat_map g l) <= k * Z.of_nat (List.length l).
Proof.
  intros Hk. induction l as [|i l IH].
  - simpl. unfold count. simpl. lia.
  - cbn [flat_map List.length]. rewrite count_app. specialize (Hk i). lia.
Qed.

Lemma print_cell_color_counts `{accessors} (nui : nuru_img_s) (nuc : nuru_pal_s)
    (cell : nuru_cell_s) :
  count is_putwc (print_cell_color nui nuc cell) = 0 /\
  count is_putws (print_cell_color nui nuc cell) = 0 /\
  0 <= count is_color_set (print_cell_color nui nuc cell) <= 2.
Proof.
  unfold print_cell_color.
  destruct (color_mode nui).
  - unfold count. simpl. lia.
  - unfold print_color_4bit, print_color_4bit_fg, print_color_4bit_bg.
    destruct (negb _), (negb _); unfold count; simpl; lia.
  - unfold print_color_8bit, print_color_8bit_fg, print_color_8bit_bg.
    destruct (negb _), (negb _); unfold count; simpl; lia.
  - unfold print_color_pal, print_color_pal_fg, print_color_pal_bg.
    destruct (negb _), (negb _), (type nuc); unfold count; simpl; lia.
Qed.

Lemma print_cell_glyph_counts `{accessors} (nui : nuru_img_s) (nug : nuru_pal_s)
    (cell : nuru_cell_s) :
  count is_putwc (print_cell_glyph nui nug cell) = 1 /\
  count is_putws (print_cell_glyph nui nug cell) = 0 /\
  count is_color_set (print_cell_glyph nui nug cell) = 0.
Proof.
  unfold print_cell_glyph, print_glyph_ascii, print_glyph_unicode, print_glyph_pal,
    print_glyph_none.
  destruct (glyph_mode nui); try destruct (ch cell =? ch_key nui);
    unfold count; simpl; lia.
Qed.

Lemma print_cell_counts `{accessors} (nui : nuru_img_s) (nug nuc : nuru_pal_s)
    (cell : nuru_cell_s) :
  count is_putwc (print_cell nui nug nuc cell) = 1 /\
  count is_putws (print_cell nui nug nuc cell) = 1 /\
  0 <= count is_color_set (print_cell nui nug nuc cell) <= 2.
Proof.
  unfold print_cell. rewrite !count_app.
  destruct (print_cell_color_counts nui nuc cell) as [Hc1 [Hc2 Hc3]].
  destruct (print_cell_glyph_counts nui nug cell) as [Hg1 [Hg2 Hg3]].
  rewrite Hc1, Hc2, Hg1, Hg2, Hg3.
  change (count is_putwc [PUTWS ANSI_FONT_RESET]) with 0.
  change (count is_putws [PUTWS ANSI_FONT_RESET]) with 1.
  change (count is_color_set [PUTWS ANSI_FONT_RESET]) with 0.
  lia.
Qed.

(** X4: whatever the modes, the keys and the palettes, every cell visited
    is written as one glyph character and one font reset, and every row as
    its cells and one line break: for [n] columns and [m] rows visited the
    driver calls [fputwc] [m * (n + 1)] times and [fputws] [m * n] times,
    and writes [2 * m * n] color sequences at most. *)
Theorem print_nui_counts `{accessors} (nui : nuru_img_s) (nug nuc : nuru_pal_s)
    (cols rows : Z) :
  let n := Z.max 0 (Z.min (nuru.cols nui) (u16 cols)) in
  let m := Z.max 0 (Z.min (nuru.rows nui) (u16 rows)) in
  exists out,
    print_nui nui nug nuc cols rows = Some (out, -1) /\
    count is_putwc out = m * (n + 1) /\
    count is_putws out = m * n /\
    count is_color_set out <= 2 * m * n.
Proof.
  intros n m. eexists. split; [apply print_nui_closed|].
  unfold area_out.
  assert (Hlen : forall k, Z.of_nat (List.length (seqZ k)) = Z.max 0 k).
  { intros k. rewrite length_seqZ. lia. }
  assert (Hrow : forall r,
             count is_putwc (row_out nui nug nuc (Z.min (nuru.cols nui) (u16 cols)) r)
             = n + 1 /\
             count is_putws (row_out nui nug nuc (Z.min (nuru.cols nui) (u16 cols)) r)
             = n /\
             count is_color_set (row_out nui nug nuc (Z.min (nuru.cols nui) (u16 cols)) r)
             <= 2 * n).
  { intros r. unfold row_out. rewrite !count_app.
    rewrite (count_flat_map is_putwc _ 1) by (intros; apply print_cell_counts).
    rewrite (count_flat_map is_putws _ 1) by (intros; apply print_cell_counts).
    pose proof (count_flat_map_le is_color_set
                  (fun c => print_cell nui nug nuc (nuru_img_get_cell nui c r)) 2
                  (seqZ (Z.min (nuru.cols nui) (u16 cols)))
                  (fun c => proj2 (proj2 (proj2 (print_cell_counts nui nug nuc _)))))
      as Hcolor.
    rewrite Hlen in *. fold n in Hcolor |- *.
    change (count is_putwc [PUTWC NEWLINE]) with 1.
    change (count is_putws [PUTWC NEWLINE]) with 0.
    change (count is_color_set [PUTWC NEWLINE]) with 0.
    lia. }
  split; [|split].
  - rewrite (count_flat_map is_putwc _ (n + 1)) by (intros; apply Hrow).
    rewrite Hlen. fold m. lia.
  - rewrite (count_flat_map is_putws _ n) by (intros; apply Hrow).
    rewrite Hlen. fold m. lia.
  - pose proof (count_flat_map_le is_color_set
                  (row_out nui nug nuc (Z.min (nuru.cols nui) (u16 cols))) (2 * n)
                  (seqZ (Z.min (nuru.rows nui) (u16 rows)))
                  (fun r => proj2 (proj2 (Hrow r)))) as Hcolor.
    rewrite Hlen in Hcolor. fold m in Hcolor. lia.
Qed.

(** ** The palettes and the modes *)

(** X5: the glyph palette is read only under the glyph mode palette and
    the color palette only under the color mode palette: under the other
    modes any two palettes give the same output. *)
Theorem print_nui_palettes_unread `{accessors} (nui : nuru_img_s)
    (nug nuc nug' nuc' : nuru_pal_s) (cols rows : Z) :
  (glyph_mode nui <> NURU_GLYPH_MODE_PALETTE ->
   print_nui nui nug' nuc cols rows = print_nui nui nug nuc cols rows) /\
  (color_mode nui <> NURU_COLOR_MODE_PALETTE ->
   print_nui nui nug nuc' cols rows = print_nui nui nug nuc cols rows).
Proof.
  split; intros Hmode; rewrite !print_nui_closed; do 2 f_equal;
    unfold area_out; apply flat_map_ext; intros r;
    unfold row_out; f_equal; apply flat_map_ext; intros c;
    unfold print_cell, print_cell_glyph, print_cell_color.
  - destruct (glyph_mode nui); try reflexivity. contradiction.
  - destruct (color_mode nui); try reflexivity. contradiction.
Qed.

Lemma print_nui_palettes_unread_witness :
  print_nui (H := table_accessors)
    (sample_img NURU_COLOR_MODE_8BIT NURU_GLYPH_MODE_UNICODE 2 1)
    red_palette glyph_palette 80 24
  = print_nui (H := table_accessors)
      (sample_img NURU_COLOR_MODE_8BIT NURU_GLYPH_MODE_UNICODE 2 1)
      glyph_palette glyph_palette 80 24.
Proof.
  apply (print_nui_palettes_unread (H := table_accessors)
           (sample_img NURU_COLOR_MODE_8BIT NURU_GLYPH_MODE_UNICODE 2 1)
           glyph_palette glyph_palette red_palette red_palette 80 24).
  discriminate.
Defined.

(** X6: under the color mode none the driver writes no color sequence at
    all, whatever the cells hold. *)
Theorem print_nui_color_mode_none `{accessors} (nui : nuru_img_s)
    (nug nuc : nuru_pal_s) (cols rows : Z) :
  color_mode nui = NURU_COLOR_MODE_NONE ->
  exists out,
    print_nui nui nug nuc cols rows = Some (out, -1) /\
    forall o, In o out -> is_color_set o = false.
Proof.
  intros Hmode. eexists. split; [apply print_nui_closed|].
  intros o Hin. unfold area_out in Hin.
  apply in_flat_map in Hin. destruct Hin as [r [_ Hin]].
  unfold row_out in Hin. apply in_app_or in Hin. destruct Hin as [Hin|Hin].
  - apply in_flat_map in Hin. destruct Hin as [c [_ Hin]].
    unfold print_cell, print_cell_color in Hin. rewrite Hmode in Hin.
    simpl in Hin. apply in_app_or in Hin. destruct Hin as [Hin|Hin].
    + unfold print_cell_glyph, print_glyph_ascii, print_glyph_unicode,
        print_glyph_pal, print_glyph_none in Hin.
      destruct (glyph_mode nui); try destruct (ch _ =? ch_key nui);
        simpl in Hin; destruct Hin as [Ho|[]]; subst o; reflexivity.
    + simpl in Hin. destruct Hin as [Ho|[]]. subst o. reflexivity.
  - simpl in Hin. destruct Hin as [Ho|[]]. subst o. reflexivity.
Qed.

Lemma print_nui_color_mode_none_witness :
  exists out,
    print_nui (H := table_accessors)
      (sample_img NURU_COLOR_MODE_NONE NURU_GLYPH_MODE_UNICODE 2 2)
      glyph_palette red_palette 80 24 = Some (out, -1) /\
    forall o, In o out -> is_color_set o = false.
Proof.
  apply (print_nui_color_mode_none (H := table_accessors)). reflexivity.
Defined.

(** ** The codes of the 4-bit printer *)

Lemma is_fg_color_code_iff (n : Z) :
  is_fg_color_code n = true <-> 30 <= n <= 37 \/ 90 <= n <= 97.
Proof.
  unfold is_fg_color_code.
  rewrite Bool.orb_true_iff, !Bool.andb_true_iff, !Z.leb_le. tauto.
Qed.

Lemma is_bg_color_code_iff (n : Z) :
  is_bg_color_code n = true <-> 40 <= n <= 47 \/ 100 <= n <= 107.
Proof.
  unfold is_bg_color_code.
  rewrite Bool.orb_true_iff, !Bool.andb_true_iff, !Z.leb_le. tauto.
Qed.

(** X7: the 4-bit printer writes a byte as the SGR parameter.  The
    parameter selects one of the sixteen colors exactly for the values 0-15
    and 204-211, and it is 0, which makes the sequence the font reset,
    exactly for the foreground value 174 and the background value 164. *)
Theorem print_color_4bit_selects_color (cell : nuru_cell_s) (fg_key bg_key : Z) :
  (0 <= fg cell <= 255 -> fg cell <> fg_key ->
   exists col,
     print_color_4bit_fg cell fg_key = [SGR col] /\ 0 <= col <= 255 /\
     (is_fg_color_code col = true <-> fg cell <= 15 \/ 204 <= fg cell <= 211) /\
     (render (SGR col) = ANSI_FONT_RESET <-> fg cell = 174)) /\
  (0 <= bg cell <= 255 -> bg cell <> bg_key ->
   exists col,
     print_color_4bit_bg cell bg_key = [SGR col] /\ 0 <= col <= 255 /\
     (is_bg_color_code col = true <-> bg cell <= 15 \/ 204 <= bg cell <= 211) /\
     (render (SGR col) = ANSI_FONT_RESET <-> bg cell = 164)).
Proof.
  assert (Hreset : forall col, 0 <= col <= 255 ->
                               (render (SGR col) = ANSI_FONT_RESET <-> col = 0)).
  { intros col Hcol. split.
    - intros Hren. unfold render, hhu in Hren. rewrite u8_small in Hren by lia.
      change (wstr "[") with [91] in Hren. change (wstr "m") with [109] in Hren.
      change ANSI_FONT_RESET with [27; 91; 48; 109] in Hren.
      destruct (Z.leb_spec 10 col).
      + apply (f_equal (@List.length Z)) in Hren.
        destruct (100 <=? col); cbn [app List.length] in Hren; discriminate Hren.
      + destruct (Z.leb_spec 100 col); [lia|]. cbn [app] in Hren.
        apply (f_equal (fun l => nth 2 l 0)) in Hren. cbn [nth] in Hren.
        rewrite Z.mod_small in Hren by lia. lia.
    - intros Hzero. subst col. reflexivity. }
  split; intros Hrange Hkey.
  - unfold print_color_4bit_fg.
    destruct (Z.eqb_spec (fg cell) fg_key) as [Heq|_]; [contradiction|].
    cbv beta iota delta [negb].
    eexists. split; [reflexivity|].
    assert (Hcol : 0 <= u8 (if fg cell <? 8 then fg cell + 30 else fg cell + 82) <= 255).
    { unfold u8. pose proof (Z.mod_pos_bound
                               (if fg cell <? 8 then fg cell + 30 else fg cell + 82) 256).
      lia. }
    split; [exact Hcol|]. split.
    + rewrite is_fg_color_code_iff. unfold u8.
      destruct (Z.ltb_spec (fg cell) 8); Z.div_mod_to_equations; lia.
    + rewrite (Hreset _ Hcol). unfold u8.
      destruct (Z.ltb_spec (fg cell) 8); Z.div_mod_to_equations; lia.
  - unfold print_color_4bit_bg.
    destruct (Z.eqb_spec (bg cell) bg_key) as [Heq|_]; [contradiction|].
    cbv beta iota delta [negb].
    eexists. split; [reflexivity|].
    assert (Hcol : 0 <= u8 ((if bg cell <? 8 then bg cell + 30 else bg cell + 82) + 10)
                   <= 255).
    { unfold u8. pose proof (Z.mod_pos_bound
                               ((if bg cell <? 8 then bg cell + 30 else bg cell + 82) + 10)
                               256).
      lia. }
    split; [exact Hcol|]. split.
    + rewrite is_bg_color_code_iff. unfold u8.
      destruct (Z.ltb_spec (bg cell) 8); Z.div_mod_to_equations; lia.
    + rewrite (Hreset _ Hcol). unfold u8.
      destruct (Z.ltb_spec (bg cell) 8); Z.div_mod_to_equations; lia.
Qed.

(** A cell whose background is 164: the second sequence written for it has
    the characters of the font reset. *)
Lemma print_color_4bit_selects_color_witness :
  exists col,
    print_color_4bit_bg (mk_cell 65 1 164) 255 = [SGR col] /\
    render (SGR col) = ANSI_FONT_RESET.
Proof.
  destruct (print_color_4bit_selects_color (mk_cell 65 1 164) 255 255) as [_ Hbg].
  destruct Hbg as [col [Hout [_ [_ Hreset]]]]; [simpl; lia|simpl; lia|].
  exists col. split; [exact Hout|]. apply Hreset. reflexivity.
Defined.

(** ** Where the two printers agree *)

(** X8: for an image in 8-bit color mode and ASCII or Unicode glyph mode
    whose glyph key is the space, in an area that covers it, [print_nui]
    of [nuru-cat] writes what [print_nui] of [nuru-view] writes without a
    palette, provided the two headers fetch the same cells. *)
Theorem printers_agree `{nuru.accessors} `{nuru_view.accessors} (nui : nuru_img_s)
    (nug nuc : nuru_pal_s) (cols rows : Z) :
  (forall c r, nuru_view.nuru_get_cell nui c r = nuru_img_get_cell nui c r) ->
  color_mode nui = NURU_COLOR_MODE_8BIT ->
  glyph_mode nui = NURU_GLYPH_MODE_ASCII \/ glyph_mode nui = NURU_GLYPH_MODE_UNICODE ->
  ch_key nui = NURU_SPACE ->
  nuru.cols nui <= cols < 65536 -> nuru.rows nui <= rows < 65536 ->
  0 <= cols -> 0 <= rows ->
  print_nui nui nug nuc cols rows = nuru_view.print_nui nui None cols rows.
Proof.
  intros Hcells Hcolor Hglyph Hkey Hcols Hrows Hc Hr.
  rewrite print_nui_closed, nuru_view_print_nui_closed by lia.
  rewrite !u16_small by lia. rewrite !Z.min_l by lia.
  do 2 f_equal. unfold area_out. apply flat_map_ext. intros r.
  unfold row_out. f_equal. apply flat_map_ext. intros c.
  rewrite Hcells.
  unfold print_cell, nuru_view.print_cell, print_cell_color, print_cell_glyph.
  rewrite Hcolor.
  unfold print_color_8bit, print_color_8bit_fg, print_color_8bit_bg,
    nuru_view.color_fg, nuru_view.color_bg.
  rewrite <- !app_assoc. do 2 f_equal.
  assert (Hsame : forall cell,
             print_glyph_ascii cell (ch_key nui) = [PUTWC (ch cell)]).
  { intros cell. unfold print_glyph_ascii, print_glyph_none.
    destruct (Z.eqb_spec (ch cell) (ch_key nui)) as [Heq|_]; [|reflexivity].
    rewrite Heq, Hkey. reflexivity. }
  destruct Hglyph as [Hmode|Hmode]; rewrite Hmode.
  - rewrite Hsame. reflexivity.
  - change (print_glyph_unicode (nuru_img_get_cell nui c r) (ch_key nui))
      with (print_glyph_ascii (nuru_img_get_cell nui c r) (ch_key nui)).
    rewrite Hsame. reflexivity.
Qed.

Lemma printers_agree_witness :
  print_nui (H := table_accessors)
    (sample_img NURU_COLOR_MODE_8BIT NURU_GLYPH_MODE_UNICODE 3 2)
    glyph_palette red_palette 80 24
  = nuru_view.print_nui (H := nuru_view_table_accessors)
      (sample_img NURU_COLOR_MODE_8BIT NURU_GLYPH_MODE_UNICODE 3 2) None 80 24.
Proof.
  apply (printers_agree (H := table_accessors) (H0 := nuru_view_table_accessors)).
  - reflexivity.
  - reflexivity.
  - right. reflexivity.
  - reflexivity.
  - simpl. lia.
  - simpl. lia.
  - lia.
  - lia.
Defined.

(** ** The command line of [nuru-cat] *)

Lemma parse_args_cons (o : ascii * string) (l : list (ascii * string))
    (opts : options_s) :
  parse_args (o :: l) None opts = parse_args l None (parse_args [o] None opts).
Proof. reflexivity. Qed.

Lemma parse_args_operand (l : list (ascii * string)) (operand : option string)
    (opts : options_s) :
  let parsed := parse_args l None opts in
  parse_args l operand opts =
  match operand with
  | Some file =>
      mk_options (Some file) (nug_file parsed) (nuc_file parsed)
                 (info parsed) (clear parsed) (help parsed) (version parsed)
  | None => parsed
  end.
Proof. destruct operand; reflexivity. Qed.

Ltac option_cases c :=
  repeat match goal with
         | |- context [Ascii.eqb c ?x] => destruct (Ascii.eqb_spec c x); [subst c|]
         end.

(** One option, read into any options. *)
Lemma parse_args_one (c : ascii) (a : string) (opts : options_s) :
  let res := parse_args [(c, a)] None opts in
  help res = help opts || Ascii.eqb c "h" /\
  version res = version opts || Ascii.eqb c "V" /\
  clear res = (if Ascii.eqb c "C" then 1 else clear opts) /\
  info res = (if Ascii.eqb c "i" then 1 else info opts) /\
  nuc_file res = (if Ascii.eqb c "c" then Some a else nuc_file opts) /\
  nug_file res = (if Ascii.eqb c "g" then Some a else nug_file opts) /\
  nui_file res = nui_file opts.
Proof.
  unfold parse_args. cbn [fold_left].
  option_cases c; cbn;
    rewrite ?Bool.orb_false_r, ?Bool.orb_true_r; repeat split; reflexivity.
Qed.

(** The options of a whole command line, read into any options. *)
Lemma parse_args_all (l : list (ascii * string)) :
  forall opts : options_s,
    let res := parse_args l None opts in
    help res = help opts || has_option "h" l /\
    version res = version opts || has_option "V" l /\
    clear res = (if has_option "C" l then 1 else clear opts) /\
    info res = (if has_option "i" l then 1 else info opts) /\
    (has_option "c" l = false -> nuc_file res = nuc_file opts) /\
    (has_option "g" l = false -> nug_file res = nug_file opts) /\
    (has_option "c" l = true -> exists a, nuc_file res = Some a) /\
    (has_option "g" l = true -> exists a, nug_file res = Some a) /\
    nui_file res = nui_file opts.
Proof.
  induction l as [|[c a] l IH]; intros opts.
  - cbn. rewrite !Bool.orb_false_r. repeat split; try reflexivity; discriminate.
  - cbv zeta. rewrite parse_args_cons.
    destruct (parse_args_one c a opts)
      as [Hh [Hv [Hcl [Hi [Hc [Hg Hf]]]]]].
    destruct (IH (parse_args [(c, a)] None opts))
      as [Ih [Iv [Icl [Ii [Ic0 [Ig0 [Ic1 [Ig1 If]]]]]]]].
    assert (Hcons : forall x, has_option x ((c, a) :: l)
                              = Ascii.eqb c x || has_option x l) by reflexivity.
    rewrite !Hcons.
    rewrite Ih, Iv, Icl, Ii, If, Hh, Hv, Hcl, Hi, Hf.
    split; [rewrite Bool.orb_assoc; reflexivity|].
    split; [rewrite Bool.orb_assoc; reflexivity|].
    split; [destruct (Ascii.eqb c "C"), (has_option "C" l); reflexivity|].
    split; [destruct (Ascii.eqb c "i"), (has_option "i" l); reflexivity|].
    split; [|split; [|split; [|split]]].
    + intros Hno. apply Bool.orb_false_elim in Hno. destruct Hno as [Hno1 Hno2].
      rewrite (Ic0 Hno2), Hc, Hno1. reflexivity.
    + intros Hno. apply Bool.orb_false_elim in Hno. destruct Hno as [Hno1 Hno2].
      rewrite (Ig0 Hno2), Hg, Hno1. reflexivity.
    + intros Hyes.
      destruct (has_option "c" l) eqn:Hrest.
      * apply Ic1. reflexivity.
      * rewrite (Ic0 eq_refl), Hc. rewrite Bool.orb_false_r in Hyes.
        rewrite Hyes. eexists. reflexivity.
    + intros Hyes.
      destruct (has_option "g" l) eqn:Hrest.
      * apply Ig1. reflexivity.
      * rewrite (Ig0 eq_refl), Hg. rewrite Bool.orb_false_r in Hyes.
        rewrite Hyes. eexists. reflexivity.
    + reflexivity.
Qed.

(** X9: read into the zeroed options, the command line sets [help],
    [version], [clear] and [info] exactly when the letters h, V, C and i
    occur among its options, whatever else does (b, f and unknown letters
    change nothing), and the image file is the first operand, if any. *)
Theorem parse_args_flags (l : list (ascii * string)) (operand : option string) :
  let opts := parse_args l operand options_zero in
  help opts = has_option "h" l /\
  version opts = has_option "V" l /\
  clear opts = (if has_option "C" l then 1 else 0) /\
  info opts = (if has_option "i" l then 1 else 0) /\
  nui_file opts = operand /\
  (has_option "c" l = false -> nuc_file opts = None) /\
  (has_option "g" l = false -> nug_file opts = None).
Proof.
  cbv zeta. rewrite parse_args_operand. cbv zeta.
  destruct (parse_args_all l options_zero)
    as [Hh [Hv [Hcl [Hi [Hc [Hg [_ [_ Hf]]]]]]]].
  destruct operand; cbn [help version clear info nui_file nuc_file nug_file];
    rewrite Hh, Hv, Hcl, Hi; repeat split; try assumption; reflexivity.
Qed.

Lemma parse_args_app (l l' : list (ascii * string)) (opts : options_s) :
  parse_args (l ++ l') None opts = parse_args l' None (parse_args l None opts).
Proof. unfold parse_args. apply fold_left_app. Qed.

(** X10: when a palette option is given several times the last one
    counts: the color palette file is the argument of the last -c and the
    glyph palette file the argument of the last -g. *)
Theorem parse_args_last_wins (l l' : list (ascii * string)) (a : string)
    (operand : option string) (opts : options_s) :
  (has_option "c" l' = false ->
   nuc_file (parse_args (l ++ ("c"%char, a) :: l') operand opts) = Some a) /\
  (has_option "g" l' = false ->
   nug_file (parse_args (l ++ ("g"%char, a) :: l') operand opts) = Some a).
Proof.
  split; intros Hlast; rewrite parse_args_operand; cbv zeta;
    rewrite parse_args_app, parse_args_cons.
  - destruct (parse_args_all l' (parse_args [("c"%char, a)] None (parse_args l None opts)))
      as [_ [_ [_ [_ [Hc _]]]]].
    destruct (parse_args_one "c" a (parse_args l None opts))
      as [_ [_ [_ [_ [Hone _]]]]].
    destruct operand; cbn [nuc_file]; rewrite (Hc Hlast), Hone; reflexivity.
  - destruct (parse_args_all l' (parse_args [("g"%char, a)] None (parse_args l None opts)))
      as [_ [_ [_ [_ [_ [Hg _]]]]]].
    destruct (parse_args_one "g" a (parse_args l None opts))
      as [_ [_ [_ [_ [_ [Hone _]]]]]].
    destruct operand; cbn [nug_file]; rewrite (Hg Hlast), Hone; reflexivity.
Qed.

Lemma parse_args_last_wins_witness :
  nuc_file (parse_args [("c"%char, "a.nuc"%string); ("C"%char, EmptyString);
                        ("c"%char, "b.nuc"%string); ("i"%char, EmptyString)]
                       (Some "x.nui"%string) options_zero)
  = Some "b.nuc"%string.
Proof.
  apply (parse_args_last_wins [("c"%char, "a.nuc"%string); ("C"%char, EmptyString)]
           [("i"%char, EmptyString)] "b.nuc" (Some "x.nui"%string) options_zero).
  reflexivity.
Defined.

Lemma parse_args_flags_witness :
  nuc_file (parse_args [("b"%char, "1"%string); ("i"%char, EmptyString)]
                       (Some "x.nui"%string) options_zero) = None.
Proof.
  apply (parse_args_flags [("b"%char, "1"%string); ("i"%char, EmptyString)]
           (Some "x.nui"%string)).
  reflexivity.
Defined.

(** ** The runs of [main] of [nuru-cat] *)

Ltac main_cases :=
  repeat match goal with
         | |- context [match ?x with _ => _ end] => destruct x eqn:?
         end.

Lemma not_in_map_OUT (out : list term_out) (msg arg : string) :
  ~ In (STDERR msg arg) (map OUT out).
Proof.
  intros Hin. apply in_map_iff in Hin. destruct Hin as [o [Ho _]]. discriminate Ho.
Qed.

(** X11: [main] exits with [EXIT_FAILURE] or with [EXIT_SUCCESS], whatever
    the printer it calls.  When it fails it has written one line on
    [stderr] and nothing else; when it succeeds it has written nothing on
    [stderr]. *)
Theorem main_exit_status `{accessors}
    (display : nuru_img_s -> nuru_pal_s -> nuru_pal_s -> Z -> Z -> option (list term_out * Z))
    (sys : system) (trace : list main_out) (status : Z) :
  main_with display sys = Some (trace, status) ->
  (status = EXIT_FAILURE /\ exists msg arg, trace = [STDERR msg arg]) \/
  (status = EXIT_SUCCESS /\ forall msg arg, ~ In (STDERR msg arg) trace).
Proof.
  unfold main_with. main_cases; intros Hrun; inversion Hrun; subst;
    try (left; split; [reflexivity|eexists; eexists; reflexivity]);
    right; (split; [reflexivity|]); intros msg arg Hin;
    try solve [simpl in Hin; intuition discriminate].
  simpl in Hin. destruct Hin as [Hin|[Hin|Hin]]; try discriminate Hin.
  apply in_app_or in Hin. destruct Hin as [Hin|Hin].
  - match type of Hin with
    | context [if ?b then _ else _] => destruct b
    end; simpl in Hin; intuition discriminate.
  - apply in_app_or in Hin. destruct Hin as [Hin|Hin].
    + exact (not_in_map_OUT _ _ _ Hin).
    + simpl in Hin. intuition discriminate.
Qed.

Lemma main_exit_status_witness :
  (EXIT_FAILURE = EXIT_FAILURE /\
   exists msg arg, [STDERR "No image file given" ""] = [STDERR msg arg]) \/
  (EXIT_FAILURE = EXIT_SUCCESS /\
   forall msg arg, ~ In (STDERR msg arg) [STDERR "No image file given" ""]).
Proof.
  apply (main_exit_status (H := table_accessors) (@print_nui table_accessors)
           (mk_system "nuru-cat" [] None (fun _ => None) (fun _ => None)
                      (fun _ _ => None) glyph_palette (Some (80, 24)) 1)).
  reflexivity.
Defined.

(** X12: a run of [main] that wrote the hide-cursor sequence or called
    [term_echo(0)] ends with the calls of [term_reset]: it writes the font
    reset and the show-cursor sequence and calls [term_echo(1)] last.  What
    that call does to the terminal is for [term_echo] to say (X24). *)
Theorem main_restores_terminal `{accessors}
    (display : nuru_img_s -> nuru_pal_s -> nuru_pal_s -> Z -> Z -> option (list term_out * Z))
    (sys : system) (trace : list main_out) (status : Z) :
  main_with display sys = Some (trace, status) ->
  In (OUT (PUTWS ANSI_HIDE_CURSOR)) trace \/ In (TERM_ECHO 0) trace ->
  exists before,
    trace = before ++ [OUT (PUTWS ANSI_FONT_RESET); OUT (PUTWS ANSI_SHOW_CURSOR);
                       TERM_ECHO 1].
Proof.
  unfold main_with. main_cases; intros Hrun Hhid; try discriminate Hrun;
    injection Hrun as Htrace Hstatus; subst trace;
    try solve [simpl in Hhid; exfalso; intuition discriminate].
  match goal with
  | |- exists before, ?a :: ?b :: ?c ++ ?out ++ IMG_FREE :: term_reset = _ =>
      exists (a :: b :: c ++ out ++ [IMG_FREE])
  end.
  cbn [app]. rewrite <- !app_assoc. reflexivity.
Qed.

Lemma main_restores_terminal_witness :
  exists trace before,
    main (H := table_accessors) sample_system = Some (trace, EXIT_SUCCESS) /\
    trace = before ++ [OUT (PUTWS ANSI_FONT_RESET); OUT (PUTWS ANSI_SHOW_CURSOR);
                       TERM_ECHO 1].
Proof.
  destruct (main (H := table_accessors) sample_system) as [[trace status]|] eqn:Hrun;
    [|vm_compute in Hrun; discriminate Hrun].
  destruct (main_restores_terminal (H := table_accessors) (@print_nui table_accessors) sample_system
              trace status Hrun) as [before Hend].
  - vm_compute in Hrun. injection Hrun as Htrace _. rewrite <- Htrace.
    left. left. reflexivity.
  - exists trace, before. split; [|exact Hend].
    vm_compute in Hrun. injection Hrun as _ Hstatus. rewrite <- Hstatus. reflexivity.
Defined.

(** X13: the first three tests of [main].  With -h it writes the help
    text and succeeds, whatever else the command line holds; without -h
    and with -V it writes the version and succeeds; with neither and
    without a file operand it fails with "No image file given".  No file
    and no terminal matter in the three cases. *)
Theorem main_early_exits `{accessors}
    (display : nuru_img_s -> nuru_pal_s -> nuru_pal_s -> Z -> Z -> option (list term_out * Z))
    (sys : system) :
  (has_option "h" (getopt sys) = true ->
   main_with display sys = Some ([HELP (argv0 sys)], EXIT_SUCCESS)) /\
  (has_option "h" (getopt sys) = false -> has_option "V" (getopt sys) = true ->
   main_with display sys = Some ([VERSION], EXIT_SUCCESS)) /\
  (has_option "h" (getopt sys) = false -> has_option "V" (getopt sys) = false ->
   operand sys = None ->
   main_with display sys = Some ([STDERR "No image file given" ""], EXIT_FAILURE)).
Proof.
  destruct (parse_args_all (getopt sys) options_zero) as [Hh [Hv [_ [_ [_ [_ [_ [_ Hf]]]]]]]].
  pose proof (parse_args_operand (getopt sys) (operand sys) options_zero) as Hop.
  cbv zeta in Hop, Hh, Hv, Hf.
  assert (Hhelp : help (parse_args (getopt sys) (operand sys) options_zero)
                  = has_option "h" (getopt sys)).
  { rewrite Hop. destruct (operand sys); cbn [help]; rewrite Hh; reflexivity. }
  assert (Hvers : version (parse_args (getopt sys) (operand sys) options_zero)
                  = has_option "V" (getopt sys)).
  { rewrite Hop. destruct (operand sys); cbn [version]; rewrite Hv; reflexivity. }
  unfold main_with. rewrite Hhelp, Hvers.
  split; [|split].
  - intros Hyes. rewrite Hyes. reflexivity.
  - intros Hno Hyes. rewrite Hno, Hyes. reflexivity.
  - intros Hno Hno' Hnone. rewrite Hno, Hno', Hop, Hnone, Hf. reflexivity.
Qed.

Lemma main_early_exits_witness :
  main (H := table_accessors)
    (mk_system "nuru-cat" [("i"%char, EmptyString); ("h"%char, EmptyString)]
               (Some "a.nui"%string) (fun _ => None) (fun _ => None)
               (fun _ _ => None) glyph_palette None 0)
  = Some ([HELP "nuru-cat"], EXIT_SUCCESS).
Proof.
  apply (main_early_exits (H := table_accessors) (@print_nui table_accessors)
           (mk_system "nuru-cat" [("i"%char, EmptyString); ("h"%char, EmptyString)]
                      (Some "a.nui"%string) (fun _ => None) (fun _ => None)
                      (fun _ _ => None) glyph_palette None 0)).
  reflexivity.
Defined.

(** X14: with -i, and neither -h nor -V, [main] loads the image, writes
    its header and succeeds; it needs no palette and no terminal for
    that. *)
Theorem main_info `{accessors}
    (display : nuru_img_s -> nuru_pal_s -> nuru_pal_s -> Z -> Z -> option (list term_out * Z))
    (sys : system) (file : string) (nui : nuru_img_s) :
  has_option "h" (getopt sys) = false -> has_option "V" (getopt sys) = false ->
  has_option "i" (getopt sys) = true ->
  operand sys = Some file -> nuru_img_load sys file = Some nui ->
  main_with display sys = Some ([INFO nui], EXIT_SUCCESS).
Proof.
  intros Hh Hv Hi Hoperand Hload.
  destruct (parse_args_all (getopt sys) options_zero) as [Fh [Fv [_ [Fi _]]]].
  pose proof (parse_args_operand (getopt sys) (operand sys) options_zero) as Hop.
  cbv zeta in Hop, Fh, Fv, Fi.
  unfold main_with. rewrite Hop, Hoperand.
  cbn [help version info nui_file].
  rewrite Fh, Fv, Fi, Hh, Hv, Hi, Hload. reflexivity.
Qed.

Lemma main_info_witness :
  main (H := table_accessors)
    (mk_system "nuru-cat" [("i"%char, EmptyString)] (Some "a.nui"%string)
               (fun _ => Some (sample_img NURU_COLOR_MODE_PALETTE NURU_GLYPH_MODE_PALETTE 2 1))
               (fun _ => None) (fun _ _ => None) glyph_palette None 0)
  = Some ([INFO (sample_img NURU_COLOR_MODE_PALETTE NURU_GLYPH_MODE_PALETTE 2 1)],
          EXIT_SUCCESS).
Proof.
  apply (main_info (H := table_accessors) (@print_nui table_accessors)
           (mk_system "nuru-cat" [("i"%char, EmptyString)] (Some "a.nui"%string)
                      (fun _ => Some (sample_img NURU_COLOR_MODE_PALETTE
                                                 NURU_GLYPH_MODE_PALETTE 2 1))
                      (fun _ => None) (fun _ _ => None) glyph_palette None 0)
           "a.nui"); reflexivity.
Defined.

(** X15: with both -g and -c on the command line no palette is looked up
    by name: the run is the same whatever the look-up would answer, also
    for an image that names its palettes. *)
Theorem main_explicit_palettes `{accessors}
    (display : nuru_img_s -> nuru_pal_s -> nuru_pal_s -> Z -> Z -> option (list term_out * Z))
    (sys : system) (lookup : string -> string -> option nuru_pal_s) :
  has_option "g" (getopt sys) = true -> has_option "c" (getopt sys) = true ->
  main_with display (with_named_palettes sys lookup) = main_with display sys.
Proof.
  intros Hg Hc.
  destruct (parse_args_all (getopt sys) options_zero)
    as [_ [_ [_ [_ [_ [_ [Hnuc [Hnug _]]]]]]]].
  destruct (Hnuc Hc) as [c Hcfile]. destruct (Hnug Hg) as [g Hgfile].
  pose proof (parse_args_operand (getopt sys) (operand sys) options_zero) as Hop.
  cbv zeta in Hop, Hcfile, Hgfile.
  assert (Hnuc' : nuc_file (parse_args (getopt sys) (operand sys) options_zero) = Some c).
  { rewrite Hop. destruct (operand sys); cbn [nuc_file]; exact Hcfile. }
  assert (Hnug' : nug_file (parse_args (getopt sys) (operand sys) options_zero) = Some g).
  { rewrite Hop. destruct (operand sys); cbn [nug_file]; exact Hgfile. }
  unfold main_with, with_named_palettes.
  cbn [getopt operand nuru_img_load nuru_pal_load load_pal_by_name nuru_pal_zero
       term_wsize fwide argv0].
  rewrite Hnuc', Hnug'. reflexivity.
Qed.

Lemma main_explicit_palettes_witness :
  let sys :=
    mk_system "nuru-cat" [("g"%char, "g.nup"%string); ("c"%char, "c.nup"%string)]
              (Some "a.nui"%string)
              (fun _ => Some (sample_img NURU_COLOR_MODE_PALETTE NURU_GLYPH_MODE_PALETTE 2 1))
              (fun path => if String.eqb path "g.nup" then Some glyph_palette
                           else Some red_palette)
              (fun _ _ => None) glyph_palette (Some (80, 24)) 1 in
  main (H := table_accessors) (with_named_palettes sys (fun _ _ => Some glyph_palette))
  = main (H := table_accessors) sys.
Proof.
  intros sys.
  apply (main_explicit_palettes (H := table_accessors) (@print_nui table_accessors) sys);
    reflexivity.
Defined.

(** X16: [main] calls the printer with the window size the terminal
    reported, and only when neither dimension is 0: two printers that
    agree on such areas give the same runs. *)
Theorem main_display_area `{accessors}
    (display display' :
       nuru_img_s -> nuru_pal_s -> nuru_pal_s -> Z -> Z -> option (list term_out * Z))
    (sys : system) :
  (forall nui nug nuc cols rows,
      term_wsize sys = Some (cols, rows) -> cols <> 0 -> rows <> 0 ->
      display' nui nug nuc cols rows = display nui nug nuc cols rows) ->
  main_with display' sys = main_with display sys.
Proof.
  intros Hagree. unfold main_with.
  repeat match goal with
         | |- context [match ?x with _ => _ end] =>
             lazymatch x with
             | display _ _ _ _ _ => fail
             | display' _ _ _ _ _ => fail
             | _ => destruct x eqn:?
             end
         end;
    try reflexivity.
  rewrite Hagree; [reflexivity|reflexivity| |];
    match goal with
    | Hzero : (_ =? 0) || (_ =? 0) = false |- _ =>
        apply Bool.orb_false_elim in Hzero; destruct Hzero as [Hc Hr];
        apply Z.eqb_neq in Hc; apply Z.eqb_neq in Hr; assumption
    end.
Qed.

(** The printer that refuses an area with a zero dimension runs like
    [print_nui] under [main]. *)
Lemma main_display_area_witness :
  main_with (H := table_accessors)
    (fun nui nug nuc cols rows =>
       if (cols =? 0) || (rows =? 0) then None
       else print_nui (H := table_accessors) nui nug nuc cols rows)
    sample_system
  = main (H := table_accessors) sample_system.
Proof.
  apply (main_display_area (H := table_accessors)).
  intros nui nug nuc cols rows _ Hcols Hrows.
  apply Z.eqb_neq in Hcols. apply Z.eqb_neq in Hrows.
  rewrite Hcols, Hrows. reflexivity.
Defined.

(** ** Palettes by name *)

Lemma tolower_not_upper (c : ascii) :
  is_upper (named_palette.tolower c) = false.
Proof.
  unfold named_palette.tolower, is_upper.
  destruct ((65 <=? nat_of_ascii c) && (nat_of_ascii c <=? 90))%nat eqn:Hup.
  - apply Bool.andb_true_iff in Hup. destruct Hup as [Hlo Hhi].
    apply Nat.leb_le in Hlo. apply Nat.leb_le in Hhi.
    rewrite nat_ascii_embedding by lia.
    apply Bool.andb_false_iff. right. apply Nat.leb_gt. lia.
  - exact Hup.
Qed.

Lemma tolower_fixes (c : ascii) :
  is_upper c = false -> named_palette.tolower c = c.
Proof.
  unfold named_palette.tolower, is_upper. intros Hup. rewrite Hup. reflexivity.
Qed.

(** X17: [make_lower] keeps the length of the string, leaves no letter
    A-Z in it, leaves a string without such a letter as it is, and changes
    nothing when applied a second time. *)
Theorem make_lower_properties (str : string) :
  String.length (named_palette.make_lower str) = String.length str /\
  string_forallb (fun c => negb (is_upper c)) (named_palette.make_lower str) = true /\
  (string_forallb (fun c => negb (is_upper c)) str = true ->
   named_palette.make_lower str = str) /\
  named_palette.make_lower (named_palette.make_lower str) = named_palette.make_lower str.
Proof.
  induction str as [|c str [IHlen [IHlow [IHfix IHidem]]]].
  - repeat split.
  - cbn [named_palette.make_lower String.length string_forallb].
    split; [rewrite IHlen; reflexivity|].
    split; [rewrite tolower_not_upper, IHlow; reflexivity|].
    split.
    + intros Hlow. apply Bool.andb_true_iff in Hlow. destruct Hlow as [Hc Hstr].
      apply Bool.negb_true_iff in Hc.
      rewrite (tolower_fixes c Hc), (IHfix Hstr). reflexivity.
    + rewrite (tolower_fixes _ (tolower_not_upper c)), IHidem. reflexivity.
Qed.

Lemma make_lower_properties_witness :
  named_palette.make_lower "box-1" = "box-1"%string /\
  named_palette.make_lower "Box-DRAW" = "box-draw"%string.
Proof.
  split; [|reflexivity].
  destruct (make_lower_properties "box-1") as [_ [_ [Hfix _]]].
  apply Hfix. reflexivity.
Defined.

Lemma make_lower_length (str : string) :
  String.length (named_palette.make_lower str) = String.length str.
Proof.
  induction str as [|c str IH]; [reflexivity|].
  cbn [named_palette.make_lower String.length]. rewrite IH. reflexivity.
Qed.

(** X18: the look-up by name does not tell upper case from lower case:
    two names that differ in the case of their letters only load the same
    palette, or fail alike. *)
Theorem load_pal_by_name_ignores_case (p : named_palette.platform)
    (type name name' : string) :
  named_palette.make_lower name = named_palette.make_lower name' ->
  named_palette.load_pal_by_name p type name
  = named_palette.load_pal_by_name p type name'.
Proof.
  intros Hsame. unfold named_palette.load_pal_by_name.
  rewrite <- (make_lower_length name), <- (make_lower_length name'), Hsame.
  reflexivity.
Qed.

Lemma load_pal_by_name_ignores_case_witness :
  named_palette.load_pal_by_name sample_platform "glyphs" "BOX"
  = Returns (Some glyph_palette) /\
  named_palette.load_pal_by_name sample_platform "glyphs" "Box"
  = named_palette.load_pal_by_name sample_platform "glyphs" "BOX".
Proof.
  split; [reflexivity|].
  apply (load_pal_by_name_ignores_case sample_platform "glyphs" "Box" "BOX").
  reflexivity.
Defined.

Lemma substring_length (k : nat) (s : string) :
  String.length (substring 0 k s) = Nat.min k (String.length s).
Proof.
  revert s. induction k as [|k IH]; intros s.
  - destruct s; reflexivity.
  - destruct s as [|c s]; [reflexivity|].
    cbn [substring String.length]. rewrite IH. reflexivity.
Qed.

Lemma substring_all (k : nat) (s : string) :
  (String.length s <= k)%nat -> substring 0 k s = s.
Proof.
  revert s. induction k as [|k IH]; intros s Hlen.
  - destruct s; [reflexivity|]. cbn [String.length] in Hlen. lia.
  - destruct s as [|c s]; [reflexivity|].
    cbn [substring String.length] in *. rewrite IH by lia. reflexivity.
Qed.

Lemma substring_prefix (k : nat) (s : string) :
  exists rest, s = (substring 0 k s ++ rest)%string.
Proof.
  revert s. induction k as [|k IH]; intros s.
  - exists s. destruct s; reflexivity.
  - destruct s as [|c s]; [exists EmptyString; reflexivity|].
    destruct (IH s) as [rest Hrest]. exists rest.
    cbn [substring String.append]. rewrite <- Hrest. reflexivity.
Qed.

Lemma snprintf_path_in_buffer (buf : string) (len : Z) (full : string) :
  0 < len ->
  path_in_buffer (Returns (named_palette.snprintf buf len full)) len full.
Proof.
  intros Hlen. unfold path_in_buffer, named_palette.snprintf.
  destruct (Z.eqb_spec len 0) as [Hzero|_]; [lia|].
  destruct (substring_prefix (Z.to_nat (len - 1)) full) as [rest Hrest].
  exists (substring 0 (Z.to_nat (len - 1)) full), rest.
  split; [reflexivity|]. split; [exact Hrest|].
  rewrite substring_length. lia.
Qed.

(** X19: for a buffer of [len > 0] characters, when [XDG_CONFIG_HOME] is
    set [pal_path] makes the path [<XDG_CONFIG_HOME>/nuru/<type>/<pal>.<ext>],
    whatever [HOME] is, and when it is not set and [HOME] is, the path
    [<HOME>/.config/nuru/<type>/<pal>.<ext>].  It returns the length of the
    whole path and leaves its beginning in the buffer, [len - 1] characters
    of it at most, so a path shorter than [len] is left whole. *)
Theorem pal_path_properties (p : named_palette.platform) (buf : string) (len : Z)
    (pal type : string) :
  0 < len ->
  (forall config,
      named_palette.getenv p "XDG_CONFIG_HOME" = Some config ->
      let full :=
        (config ++ "/nuru/" ++ type ++ "/" ++ pal ++ "."
         ++ named_palette.NURU_PAL_FILEEXT p)%string in
      path_in_buffer (named_palette.pal_path p buf len pal type) len full /\
      (Z.of_nat (String.length full) < len ->
       named_palette.pal_path p buf len pal type
       = Returns (full, Z.of_nat (String.length full)))) /\
  (forall home,
      named_palette.getenv p "XDG_CONFIG_HOME" = None ->
      named_palette.getenv p "HOME" = Some home ->
      let full :=
        (home ++ "/.config/nuru/" ++ type ++ "/" ++ pal ++ "."
         ++ named_palette.NURU_PAL_FILEEXT p)%string in
      path_in_buffer (named_palette.pal_path p buf len pal type) len full /\
      (Z.of_nat (String.length full) < len ->
       named_palette.pal_path p buf len pal type
       = Returns (full, Z.of_nat (String.length full)))).
Proof.
  intros Hlen.
  assert (Hwhole : forall full,
             Z.of_nat (String.length full) < len ->
             Returns (named_palette.snprintf buf len full)
             = Returns (full, Z.of_nat (String.length full))).
  { intros full Hfits. unfold named_palette.snprintf.
    destruct (Z.eqb_spec len 0) as [Hzero|_]; [lia|].
    rewrite substring_all by lia. reflexivity. }
  split.
  - intros config Hconfig full. unfold named_palette.pal_path. rewrite Hconfig.
    split.
    + apply (snprintf_path_in_buffer buf len full Hlen).
    + apply (Hwhole full).
  - intros home Hconfig Hhome full. unfold named_palette.pal_path.
    rewrite Hconfig, Hhome.
    split.
    + apply (snprintf_path_in_buffer buf len full Hlen).
    + apply (Hwhole full).
Qed.

(** With [HOME] set to [/home/u] and no [XDG_CONFIG_HOME]: a buffer of
    4096 characters holds the whole path, one of 10 its first 9
    characters. *)
Lemma pal_path_properties_witness :
  path_in_buffer
    (named_palette.pal_path sample_platform EmptyString 4096 "box" "glyphs") 4096
    "/home/u/.config/nuru/glyphs/box.nup" /\
  named_palette.pal_path sample_platform EmptyString 4096 "box" "glyphs"
  = Returns ("/home/u/.config/nuru/glyphs/box.nup"%string, 35) /\
  named_palette.pal_path sample_platform EmptyString 10 "box" "glyphs"
  = Returns ("/home/u/."%string, 35).
Proof.
  split; [|split; reflexivity].
  destruct (pal_path_properties sample_platform EmptyString 4096 "box" "glyphs")
    as [_ Hhome]; [lia|].
  apply (Hhome "/home/u"%string); reflexivity.
Defined.

(** ** The runs of [main] of [nuru-view] *)

Lemma view_parse_args_cons (o : ascii * string) (l : list (ascii * string))
    (opts : nuru_view_main.options_s) :
  nuru_view_main.parse_args (o :: l) None opts
  = nuru_view_main.parse_args l None (nuru_view_main.parse_args [o] None opts).
Proof. reflexivity. Qed.

Lemma view_parse_args_one (c : ascii) (a : string) (opts : nuru_view_main.options_s) :
  let res := nuru_view_main.parse_args [(c, a)] None opts in
  nuru_view_main.help res = nuru_view_main.help opts || Ascii.eqb c "h" /\
  nuru_view_main.version res = nuru_view_main.version opts || Ascii.eqb c "V" /\
  nuru_view_main.pal_file res
  = (if Ascii.eqb c "p" then Some a else nuru_view_main.pal_file opts) /\
  nuru_view_main.img_file res = nuru_view_main.img_file opts.
Proof.
  unfold nuru_view_main.parse_args. cbn [fold_left].
  option_cases c; cbn;
    rewrite ?Bool.orb_false_r, ?Bool.orb_true_r; repeat split; reflexivity.
Qed.

Lemma view_parse_args_all (l : list (ascii * string)) :
  forall opts : nuru_view_main.options_s,
    let res := nuru_view_main.parse_args l None opts in
    nuru_view_main.help res = nuru_view_main.help opts || has_option "h" l /\
    nuru_view_main.version res = nuru_view_main.version opts || has_option "V" l /\
    (has_option "p" l = false ->
     nuru_view_main.pal_file res = nuru_view_main.pal_file opts) /\
    nuru_view_main.img_file res = nuru_view_main.img_file opts.
Proof.
  induction l as [|[c a] l IH]; intros opts.
  - cbn. rewrite !Bool.orb_false_r. repeat split.
  - cbv zeta. rewrite view_parse_args_cons.
    destruct (view_parse_args_one c a opts) as [Hh [Hv [Hp Hf]]].
    destruct (IH (nuru_view_main.parse_args [(c, a)] None opts)) as [Ih [Iv [Ip If]]].
    assert (Hcons : forall x, has_option x ((c, a) :: l)
                              = Ascii.eqb c x || has_option x l) by reflexivity.
    rewrite !Hcons, Ih, Iv, If, Hh, Hv, Hf.
    split; [rewrite Bool.orb_assoc; reflexivity|].
    split; [rewrite Bool.orb_assoc; reflexivity|].
    split; [|reflexivity].
    intros Hno. apply Bool.orb_false_elim in Hno. destruct Hno as [Hno1 Hno2].
    rewrite (Ip Hno2), Hp, Hno1. reflexivity.
Qed.

(** The options of [nuru-view] read from a command line without operand. *)
Lemma view_parse_args_no_operand (l : list (ascii * string)) :
  let opts := nuru_view_main.parse_args l None nuru_view_main.options_zero in
  nuru_view_main.help opts = has_option "h" l /\
  nuru_view_main.version opts = has_option "V" l /\
  (has_option "p" l = false -> nuru_view_main.pal_file opts = None) /\
  nuru_view_main.img_file opts = None.
Proof.
  destruct (view_parse_args_all l nuru_view_main.options_zero) as [Hh [Hv [Hp Hf]]].
  repeat split; assumption.
Qed.

(** X20: [nuru-view] does not stop when the command line names no image
    file.  It writes "No image file given" and goes on: every run that
    returns has written more after that line, and when the loader answers
    the null file name with an image, the image is displayed and the exit
    status is [EXIT_SUCCESS]. *)
Theorem nuru_view_main_without_file `{nuru_view.accessors} (sys : nuru_view_main.system) :
  nuru_view_main.fwide sys = 1 ->
  has_option "h" (nuru_view_main.getopt sys) = false ->
  has_option "V" (nuru_view_main.getopt sys) = false ->
  nuru_view_main.operand sys = None ->
  (forall trace status,
      nuru_view_main.main sys = Returns (trace, status) ->
      exists rest, trace = STDERR "No image file given" "" :: rest /\ rest <> []) /\
  (forall cols rows nui,
      has_option "p" (nuru_view_main.getopt sys) = false ->
      nuru_view_main.term_wsize sys = Some (cols, rows) -> cols <> 0 -> rows <> 0 ->
      nuru_view_main.nuru_img_load sys None = Returns (Some nui) ->
      nuru.cols nui <= 65535 -> nuru.rows nui <= 65535 ->
      exists out,
        nuru_view.print_nui nui None cols rows = Some (out, -1) /\
        nuru_view_main.main sys
        = Returns (STDERR "No image file given" ""
                   :: [OUT (PUTWS ANSI_HIDE_CURSOR); TERM_ECHO 0;
                       OUT (PUTWS ANSI_CLEAR_SCREEN); OUT (PUTWS ANSI_CURSOR_RESET)]
                   ++ map OUT out
                   ++ [IMG_FREE; OUT (PUTWS ANSI_FONT_RESET);
                       OUT (PUTWS ANSI_SHOW_CURSOR); TERM_ECHO 1],
                   EXIT_SUCCESS)).
Proof.
  intros Hwide Hh Hv Hoperand.
  destruct (view_parse_args_no_operand (nuru_view_main.getopt sys))
    as [Fh [Fv [Fp Ff]]].
  cbv zeta in Fh, Fv, Fp, Ff.
  unfold nuru_view_main.main.
  rewrite Hwide, Hoperand, Fh, Fv, Ff, Hh, Hv.
  cbn [Z.eqb Pos.eqb negb].
  split.
  - intros trace status.
    repeat match goal with
           | |- context [match ?x with _ => _ end] => destruct x
           end;
      intros Hrun; try discriminate Hrun;
      injection Hrun as Htrace _; subst trace;
      eexists; (split; [reflexivity|]); discriminate.
  - intros cols rows nui Hp Hsize Hcols Hrows Hload Hc Hr.
    rewrite Hsize, Hload, (Fp Hp).
    apply Z.eqb_neq in Hcols. apply Z.eqb_neq in Hrows.
    rewrite Hcols, Hrows. cbn [orb].
    rewrite nuru_view_print_nui_closed by assumption.
    eexists. split; reflexivity.
Qed.

Lemma nuru_view_main_without_file_witness :
  nuru_view_main.main (H := nuru_view_table_accessors) sample_view_system
  = Returns ([STDERR "No image file given" "";
              STDERR "Failed to determine terminal size" ""], EXIT_FAILURE).
Proof.
  destruct (nuru_view_main_without_file (H := nuru_view_table_accessors)
              sample_view_system eq_refl eq_refl eq_refl eq_refl) as [Hmore _].
  destruct (nuru_view_main.main (H := nuru_view_table_accessors) sample_view_system)
    as [|[trace status]] eqn:Hrun; [vm_compute in Hrun; discriminate Hrun|].
  destruct (Hmore trace status eq_refl) as [rest [Htrace _]].
  vm_compute in Hrun. exact (eq_sym Hrun).
Defined.

(** X21: a run of [main] of [nuru-view] that wrote the hide-cursor
    sequence exits with [EXIT_SUCCESS] and is, after the complaint about a
    missing file name if there was one: the calls of [term_setup] and
    [term_clear], then what [print_nui] writes for the image the loader
    gave, the palette of -p if any and the window size, then the release
    of the image and the calls of [term_reset], [term_echo(1)] last. *)
Theorem nuru_view_main_restores_terminal `{nuru_view.accessors}
    (sys : nuru_view_main.system) (trace : list main_out) (status : Z) :
  let opts :=
    nuru_view_main.parse_args (nuru_view_main.getopt sys) (nuru_view_main.operand sys)
                              nuru_view_main.options_zero in
  nuru_view_main.main sys = Returns (trace, status) ->
  In (OUT (PUTWS ANSI_HIDE_CURSOR)) trace ->
  status = EXIT_SUCCESS /\
  exists nui cols rows out ret,
    nuru_view_main.nuru_img_load sys (nuru_view_main.img_file opts) = Returns (Some nui) /\
    nuru_view_main.term_wsize sys = Some (cols, rows) /\
    nuru_view.print_nui nui
      match nuru_view_main.pal_file opts with
      | Some file => nuru_view_main.nuru_pal_load sys file
      | None => None
      end cols rows = Some (out, ret) /\
    trace = match nuru_view_main.img_file opts with
            | None => [STDERR "No image file given" ""]
            | Some _ => []
            end
            ++ [OUT (PUTWS ANSI_HIDE_CURSOR); TERM_ECHO 0;
                OUT (PUTWS ANSI_CLEAR_SCREEN); OUT (PUTWS ANSI_CURSOR_RESET)]
            ++ map OUT out
            ++ [IMG_FREE; OUT (PUTWS ANSI_FONT_RESET); OUT (PUTWS ANSI_SHOW_CURSOR);
                TERM_ECHO 1].
Proof.
  intros opts. unfold nuru_view_main.main. fold opts.
  destruct (negb (nuru_view_main.fwide sys =? 1));
    [intros Hrun Hhid; injection Hrun as Htrace _; subst trace;
     simpl in Hhid; exfalso; intuition discriminate|].
  destruct (nuru_view_main.help opts);
    [intros Hrun Hhid; injection Hrun as Htrace _; subst trace;
     simpl in Hhid; exfalso; intuition discriminate|].
  destruct (nuru_view_main.version opts);
    [intros Hrun Hhid; injection Hrun as Htrace _; subst trace;
     simpl in Hhid; exfalso; intuition discriminate|].
  destruct (nuru_view_main.term_wsize sys) as [[cols rows]|];
    [|intros Hrun Hhid; injection Hrun as Htrace _; subst trace;
      destruct (nuru_view_main.img_file opts);
      simpl in Hhid; exfalso; intuition discriminate].
  destruct ((cols =? 0) || (rows =? 0));
    [intros Hrun Hhid; injection Hrun as Htrace _; subst trace;
     destruct (nuru_view_main.img_file opts);
     simpl in Hhid; exfalso; intuition discriminate|].
  destruct (nuru_view_main.nuru_img_load sys (nuru_view_main.img_file opts))
    as [|[nui|]]; [discriminate| |].
  - destruct (nuru_view_main.pal_file opts) as [file|].
    + destruct (nuru_view_main.nuru_pal_load sys file) as [nup|].
      * destruct (nuru_view.print_nui nui (Some nup) cols rows) as [[out ret]|] eqn:Hout;
          [|discriminate].
        intros Hrun Hhid. injection Hrun as Htrace Hstatus.
        split; [symmetry; exact Hstatus|].
        exists nui, cols, rows, out, ret.
        split; [reflexivity|]. split; [reflexivity|]. split; [exact Hout|].
        rewrite <- Htrace. reflexivity.
      * intros Hrun Hhid; injection Hrun as Htrace _; subst trace;
          destruct (nuru_view_main.img_file opts);
          simpl in Hhid; exfalso; intuition discriminate.
    + destruct (nuru_view.print_nui nui None cols rows) as [[out ret]|] eqn:Hout;
        [|discriminate].
      intros Hrun Hhid. injection Hrun as Htrace Hstatus.
      split; [symmetry; exact Hstatus|].
      exists nui, cols, rows, out, ret.
      split; [reflexivity|]. split; [reflexivity|]. split; [exact Hout|].
      rewrite <- Htrace. reflexivity.
  - intros Hrun Hhid; injection Hrun as Htrace _; subst trace;
      destruct (nuru_view_main.img_file opts);
      simpl in Hhid; exfalso; intuition discriminate.
Qed.

(** A one-cell image: the run is the two set-up calls, the two of the
    clearing, the five calls of [print_nui], the release and the three
    calls of the reset. *)
Lemma nuru_view_main_restores_terminal_witness :
  let sys :=
    nuru_view_main.mk_system "nuru-view" [] (Some "a.nui"%string)
      (fun _ => Returns (Some (sample_img NURU_COLOR_MODE_8BIT NURU_GLYPH_MODE_UNICODE 1 1)))
      (fun _ => None) (Some (80, 24)) 1 in
  nuru_view_main.main (H := nuru_view_table_accessors) sys
  = Returns ([OUT (PUTWS ANSI_HIDE_CURSOR); TERM_ECHO 0;
              OUT (PUTWS ANSI_CLEAR_SCREEN); OUT (PUTWS ANSI_CURSOR_RESET);
              OUT (SGR_FG_8BIT 0); OUT (SGR_BG_8BIT 0); OUT (PUTWC 256);
              OUT (PUTWS ANSI_FONT_RESET); OUT (PUTWC NEWLINE);
              IMG_FREE; OUT (PUTWS ANSI_FONT_RESET); OUT (PUTWS ANSI_SHOW_CURSOR);
              TERM_ECHO 1], EXIT_SUCCESS).
Proof.
  intros sys.
  destruct (nuru_view_main.main (H := nuru_view_table_accessors) sys)
    as [|[trace status]] eqn:Hrun; [vm_compute in Hrun; discriminate Hrun|].
  destruct (nuru_view_main_restores_terminal (H := nuru_view_table_accessors)
              sys trace status Hrun)
    as [Hstatus [nui [cols [rows [out [ret [Hload [Hsize [Hout Htrace]]]]]]]]].
  - vm_compute in Hrun. injection Hrun as Htrace _. rewrite <- Htrace.
    left. reflexivity.
  - vm_compute in Hload. injection Hload as Hnui. subst nui.
    vm_compute in Hsize. injection Hsize as Hcols Hrows. subst cols rows.
    vm_compute in Hout. injection Hout as Hout _. subst out.
    rewrite Htrace, Hstatus. reflexivity.
Defined.

(** X22: a palette is looked up by name only for an image that names one:
    for images whose two palette names are empty the run of [main] is the
    same whatever the look-up would answer. *)
Theorem main_unnamed_palettes `{accessors}
    (display : nuru_img_s -> nuru_pal_s -> nuru_pal_s -> Z -> Z -> option (list term_out * Z))
    (sys : system) (lookup : string -> string -> option nuru_pal_s) :
  (forall file nui,
      nuru_img_load sys file = Some nui ->
      glyph_pal nui = EmptyString /\ color_pal nui = EmptyString) ->
  main_with display (with_named_palettes sys lookup) = main_with display sys.
Proof.
  intros Hnames. unfold main_with, with_named_palettes.
  cbn [getopt operand nuru_img_load nuru_pal_load load_pal_by_name nuru_pal_zero
       term_wsize fwide argv0].
  destruct (help _); [reflexivity|].
  destruct (version _); [reflexivity|].
  destruct (nui_file _) as [file|]; [|reflexivity].
  destruct (nuru_img_load sys file) as [nui|] eqn:Hload; [|reflexivity].
  destruct (Hnames file nui Hload) as [Hglyph Hcolor].
  rewrite Hglyph, Hcolor. cbn [nonempty]. rewrite !Bool.andb_false_r.
  reflexivity.
Qed.

Lemma main_unnamed_palettes_witness :
  main (H := table_accessors)
    (with_named_palettes sample_system (fun _ _ => Some glyph_palette))
  = main (H := table_accessors) sample_system.
Proof.
  apply (main_unnamed_palettes (H := table_accessors) (@print_nui table_accessors)
           sample_system).
  intros file nui Hload. injection Hload as Hnui. rewrite <- Hnui.
  split; reflexivity.
Defined.

(** ** The printer of [nuru-view] and the area *)

Lemma nuru_view_print_cell_counts `{nuru_view.accessors} (img : nuru_img_s)
    (pal : option nuru_pal_s) (cell : nuru_cell_s) :
  count is_putwc (nuru_view.print_cell img pal cell) = 1 /\
  count is_putws (nuru_view.print_cell img pal cell) = 1.
Proof.
  unfold nuru_view.print_cell, nuru_view.color_fg, nuru_view.color_bg.
  destruct (negb _), (negb _); split; reflexivity.
Qed.

(** X23: [print_nui] of [nuru-view] writes every cell of the image,
    whatever the area it is given: for an image of [n] columns and [m]
    rows it calls [fputwc] [m * (n + 1)] times and [fputws] [m * n] times
    also when the area is smaller than the image. *)
Theorem nuru_view_print_nui_counts `{nuru_view.accessors} (img : nuru_img_s)
    (pal : option nuru_pal_s) (cols rows : Z) :
  0 <= nuru.cols img <= 65535 -> 0 <= nuru.rows img <= 65535 ->
  exists out,
    nuru_view.print_nui img pal cols rows = Some (out, -1) /\
    count is_putwc out = nuru.rows img * (nuru.cols img + 1) /\
    count is_putws out = nuru.rows img * nuru.cols img.
Proof.
  intros Hcols Hrows. eexists.
  split; [apply nuru_view_print_nui_closed; lia|].
  assert (Hlen : forall k, 0 <= k -> Z.of_nat (List.length (seqZ k)) = k).
  { intros k Hk. rewrite length_seqZ. lia. }
  split.
  - rewrite (count_flat_map is_putwc _ (nuru.cols img + 1)).
    + rewrite Hlen by lia. lia.
    + intros r. rewrite count_app.
      rewrite (count_flat_map is_putwc _ 1)
        by (intros; apply nuru_view_print_cell_counts).
      rewrite Hlen by lia.
      change (count is_putwc [PUTWC NEWLINE]) with 1. lia.
  - rewrite (count_flat_map is_putws _ (nuru.cols img)).
    + rewrite Hlen by lia. lia.
    + intros r. rewrite count_app.
      rewrite (count_flat_map is_putws _ 1)
        by (intros; apply nuru_view_print_cell_counts).
      rewrite Hlen by lia.
      change (count is_putws [PUTWC NEWLINE]) with 0. lia.
Qed.

(** An image of 3 columns and 2 rows in an area of one cell. *)
Lemma nuru_view_print_nui_counts_witness :
  exists out,
    nuru_view.print_nui (H := nuru_view_table_accessors)
      (sample_img NURU_COLOR_MODE_8BIT NURU_GLYPH_MODE_UNICODE 3 2) None 1 1
    = Some (out, -1) /\
    count is_putwc out = 8 /\ count is_putws out = 6.
Proof.
  apply (nuru_view_print_nui_counts (H := nuru_view_table_accessors)
           (sample_img NURU_COLOR_MODE_8BIT NURU_GLYPH_MODE_UNICODE 3 2) None 1 1);
    simpl; lia.
Defined.

(** ** The echo flag *)


